(** * The LBO engine of company_valuation: a shallow embedding

    Source: [src/company_valuation/lbo.py].

    Numbers.  The Python code computes on [float]; here every float is an
    exact real number ([R]), so rounding, overflow and NaN are outside the
    model.  Python's [int] values (sweep priority, year index, iteration
    caps) are [Z].  Division is the only partial arithmetic operation of
    the engine: Python raises [ZeroDivisionError] on a zero divisor, and
    so does [pydiv].

    State.  [run_model] and [solve_for_entry_multiple] are methods of a
    mutable [LBOModel] object; they are computations in the monad [LBO],
    which threads the object and carries Python exceptions.  The debt
    balances of [run_model] live in a dict that is local to one call, an
    insertion-ordered association list keyed by tranche name. *)

From Stdlib Require Import Reals Lra ZArith Lia List String Bool.
From Stdlib Require Import Sorted Permutation.
From Stdlib Require Import PrimFloat.

(** A decimal literal in [float_scope] is the nearest binary64 number, as
    in Python. *)
Set Warnings "-inexact-float".
Import ListNotations.

Open Scope R_scope.

(** ** Python values *)

(** [sum(xs)]: Python folds from the left, starting at [0]. *)
Definition pysum (xs : list R) : R := fold_left Rplus xs 0.

Inductive exn : Type :=
| IndexError
| ZeroDivisionError
| UnboundLocalError.

Inductive outcome (A : Type) : Type :=
| Ok (a : A)
| Raise (e : exn).

Arguments Ok {A} a.
Arguments Raise {A} e.

(** [a / b] on floats. *)
Definition pydiv (a b : R) : outcome R :=
  if Req_dec_T b 0 then Raise ZeroDivisionError else Ok (a / b).

(** ** A dict from tranche names to balances

    Keys are unique and keep the position of their first insertion, as in
    a Python dict. *)
Definition dict : Type := list (string * R).

Fixpoint dict_set (d : dict) (k : string) (v : R) : dict :=
  match d with
  | [] => [(k, v)]
  | (k', v') :: r =>
      if String.eqb k k' then (k', v) :: r else (k', v') :: dict_set r k v
  end.

(** [d[k]].  A missing key is a [KeyError] in Python; [run_model] only
    looks up names it has inserted (lemma [dict_keys_init] and
    [In_keys_dict_set] below), so the default is never read there. *)
Fixpoint dict_get (d : dict) (k : string) : R :=
  match d with
  | [] => 0
  | (k', v') :: r => if String.eqb k k' then v' else dict_get r k
  end.

Definition dict_keys (d : dict) : list string := map fst d.

Definition dict_values (d : dict) : list R := map snd d.

(** ** Data model *)

Record DebtTranche : Type := mkDebtTranche {
  name : string;
  amount : R;
  interest_rate : R;
  amortization_rate : R;
  is_revolver : bool;
  revolver_commitment : R;
  cash_sweep_priority : Z
}.

Definition annual_amortization (t : DebtTranche) (original_amount : R) : R :=
  original_amount * amortization_rate t.

Definition interest_expense (t : DebtTranche) (balance : R) : R :=
  balance * interest_rate t.

Record LBOProjection : Type := mkLBOProjection {
  year : Z;
  ebitda : R;
  capex : R;
  delta_nwc : R;
  tax_rate : R;
  depreciation : R
}.

(** One row of [yearly_results] (a dict with fixed keys in the source). *)
Module Ledger.
Record t : Type := mk {
  year : Z;
  ebitda : R;
  interest_expense : R;
  fcf : R;
  mandatory_amortization : R;
  cash_sweep : R;
  revolver_change : R;
  ending_debt : R
}.
End Ledger.

Record LBOResult : Type := mkLBOResult {
  entry_equity : R;
  exit_equity : R;
  moic : R;
  irr : R;
  exit_enterprise_value : R;
  exit_net_debt : R;
  total_debt_paydown : R;
  yearly_results : list Ledger.t
}.

Module SourcesAndUses.
Record t : Type := mk {
  term_loan : R;
  revolver_draw : R;
  other_debt : R;
  sponsor_equity : R;
  rollover_equity : R;
  equity_purchase : R;
  refinance_debt : R;
  transaction_fees : R;
  financing_fees : R
}.

Definition total_sources (s : t) : R :=
  term_loan s + revolver_draw s + other_debt s
  + sponsor_equity s + rollover_equity s.

Definition total_uses (s : t) : R :=
  equity_purchase s + refinance_debt s + transaction_fees s + financing_fees s.


Definition is_balanced (s : t) (tolerance : R) : bool :=
  if Rlt_dec (Rabs (total_sources s - total_uses s)) tolerance
  then true else false.
End SourcesAndUses.

Record LBOModel : Type := mkLBOModel {
  entry_ebitda : R;
  entry_multiple : R;
  debt_tranches : list DebtTranche;
  projections : list LBOProjection;
  exit_multiple : R;
  transaction_fees_pct : R;
  financing_fees_pct : R;
  min_cash : R
}.

(** ** Properties of the model object *)

Definition purchase_price (m : LBOModel) : R :=
  entry_ebitda m * entry_multiple m.

Definition total_initial_debt (m : LBOModel) : R :=
  pysum (map amount (debt_tranches m)).

Definition transaction_fees (m : LBOModel) : R :=
  purchase_price m * transaction_fees_pct m.

Definition financing_fees (m : LBOModel) : R :=
  total_initial_debt m * financing_fees_pct m.

Definition initial_equity (m : LBOModel) : R :=
  purchase_price m + transaction_fees m + financing_fees m
  - total_initial_debt m.

Definition sources_and_uses (m : LBOModel) : SourcesAndUses.t :=
  let term_loan :=
    pysum (map amount (filter (fun t => negb (is_revolver t)) (debt_tranches m))) in
  let revolver :=
    pysum (map amount (filter (fun t => is_revolver t) (debt_tranches m))) in
  {| SourcesAndUses.term_loan := term_loan;
     SourcesAndUses.revolver_draw := revolver;
     SourcesAndUses.other_debt := 0;
     SourcesAndUses.sponsor_equity := initial_equity m;
     SourcesAndUses.rollover_equity := 0;
     SourcesAndUses.equity_purchase := purchase_price m;
     SourcesAndUses.refinance_debt := 0;
     SourcesAndUses.transaction_fees := transaction_fees m;
     SourcesAndUses.financing_fees := financing_fees m |}.

Definition _calculate_free_cash_flow (proj : LBOProjection)
    (interest : R) : R :=
  let taxable_income := ebitda proj - depreciation proj - interest in
  let taxes := Rmax 0 (taxable_income * tax_rate proj) in
  ebitda proj - interest - taxes - capex proj - delta_nwc proj.

(** ** The debt schedule simulator: [run_model] *)

(** [{t.name: t.amount for t in self.debt_tranches}] *)
Definition init_balances (ts : list DebtTranche) : dict :=
  fold_left (fun d t => dict_set d (name t) (amount t)) ts [].

Definition total_interest_of (ts : list DebtTranche) (debt_balances : dict) : R :=
  pysum (map (fun t => interest_expense t (dict_get debt_balances (name t))) ts).

(** The inner [for iteration in range(max_iterations)] loop.  Its two
    results, [total_interest] and [fcf], are function-scope variables:
    [vars] is [None] while they are unbound.  [prev] is [prev_interest]. *)
Fixpoint circularity_loop (iterations : nat) (ts : list DebtTranche)
    (proj : LBOProjection) (debt_balances : dict)
    (convergence_threshold prev : R) (vars : option (R * R)) : option (R * R) :=
  match iterations with
  | O => vars
  | S k =>
      let total_interest := total_interest_of ts debt_balances in
      let fcf := _calculate_free_cash_flow proj total_interest in
      if Rlt_dec (Rabs (total_interest - prev)) convergence_threshold
      then Some (total_interest, fcf)
      else circularity_loop k ts proj debt_balances convergence_threshold
             total_interest (Some (total_interest, fcf))
  end.

(** "Apply mandatory amortization": returns the balances and
    [mandatory_paydown]. *)
Fixpoint amortization_loop (ts : list DebtTranche) (original_amounts : dict)
    (debt_balances : dict) (mandatory_paydown : R) : dict * R :=
  match ts with
  | [] => (debt_balances, mandatory_paydown)
  | t :: rest =>
      if is_revolver t
      then amortization_loop rest original_amounts debt_balances mandatory_paydown
      else
        let amort := Rmin (annual_amortization t (dict_get original_amounts (name t)))
                          (dict_get debt_balances (name t)) in
        amortization_loop rest original_amounts
          (dict_set debt_balances (name t) (dict_get debt_balances (name t) - amort))
          (mandatory_paydown + amort)
  end.

(** [sorted(..., key=lambda x: x.cash_sweep_priority)]: Python's sort is
    stable, and so is this insertion sort (an element goes before the
    elements of equal key that followed it in the input). *)
Fixpoint insert_by_priority (t : DebtTranche) (l : list DebtTranche)
  : list DebtTranche :=
  match l with
  | [] => [t]
  | u :: r =>
      if (cash_sweep_priority t <=? cash_sweep_priority u)%Z
      then t :: u :: r
      else u :: insert_by_priority t r
  end.

Definition sorted_by_priority (l : list DebtTranche) : list DebtTranche :=
  fold_right insert_by_priority [] l.

Definition non_revolvers (ts : list DebtTranche) : list DebtTranche :=
  filter (fun t => negb (is_revolver t)) ts.

(** The walk over [sorted_tranches]; [break] leaves the loop. *)
Fixpoint sweep_loop (sorted_tranches : list DebtTranche) (debt_balances : dict)
    (sweep_paydown remaining_cash : R) : dict * R :=
  match sorted_tranches with
  | [] => (debt_balances, sweep_paydown)
  | t :: rest =>
      if Rle_dec remaining_cash 0 then (debt_balances, sweep_paydown)
      else
        let paydown := Rmin remaining_cash (dict_get debt_balances (name t)) in
        sweep_loop rest
          (dict_set debt_balances (name t) (dict_get debt_balances (name t) - paydown))
          (sweep_paydown + paydown) (remaining_cash - paydown)
  end.

(** "Cash sweep - pay down debt in priority order": returns the balances
    and [sweep_paydown]. *)
Definition cash_sweep (ts : list DebtTranche) (debt_balances : dict)
    (cash_for_sweep : R) : dict * R :=
  if Rlt_dec 0 cash_for_sweep
  then sweep_loop (sorted_by_priority (non_revolvers ts)) debt_balances 0 cash_for_sweep
  else (debt_balances, 0).

(** "Handle revolver": returns the balances and [revolver_change]. *)
Fixpoint revolver_loop (ts : list DebtTranche) (debt_balances : dict)
    (cash_for_sweep sweep_paydown revolver_change : R) : dict * R :=
  match ts with
  | [] => (debt_balances, revolver_change)
  | t :: rest =>
      if is_revolver t then
        if Rlt_dec cash_for_sweep 0 then
          let draw := Rmin (- cash_for_sweep)
                           (revolver_commitment t - dict_get debt_balances (name t)) in
          revolver_loop rest
            (dict_set debt_balances (name t) (dict_get debt_balances (name t) + draw))
            cash_for_sweep sweep_paydown draw
        else if Rlt_dec 0 cash_for_sweep then
          if Req_dec_T sweep_paydown 0 then
            let repay := Rmin cash_for_sweep (dict_get debt_balances (name t)) in
            revolver_loop rest
              (dict_set debt_balances (name t) (dict_get debt_balances (name t) - repay))
              cash_for_sweep sweep_paydown (- repay)
          else revolver_loop rest debt_balances cash_for_sweep sweep_paydown revolver_change
        else revolver_loop rest debt_balances cash_for_sweep sweep_paydown revolver_change
      else revolver_loop rest debt_balances cash_for_sweep sweep_paydown revolver_change
  end.

(** The local variables of [run_model] that live across projection years. *)
Record Sim : Type := mkSim {
  debt_balances : dict;
  loop_vars : option (R * R);
  rows : list Ledger.t;
  total_paydown : R
}.

(** The body of [for proj in self.projections]. *)
Definition year_body (ts : list DebtTranche) (original_amounts : dict)
    (max_iterations : Z) (convergence_threshold : R)
    (proj : LBOProjection) (s : Sim) : outcome Sim :=
  let vars := circularity_loop (Z.to_nat max_iterations) ts proj
                (debt_balances s) convergence_threshold 0 (loop_vars s) in
  let '(bal1, mandatory_paydown) :=
    amortization_loop ts original_amounts (debt_balances s) 0 in
  match vars with
  | None => Raise UnboundLocalError
  | Some (total_interest, fcf) =>
      let cash_for_sweep := fcf - mandatory_paydown in
      let '(bal2, sweep_paydown) := cash_sweep ts bal1 cash_for_sweep in
      let '(bal3, revolver_change) :=
        revolver_loop ts bal2 cash_for_sweep sweep_paydown 0 in
      let year_paydown := mandatory_paydown + sweep_paydown - revolver_change in
      Ok {| debt_balances := bal3;
            loop_vars := vars;
            rows := rows s ++
              [ {| Ledger.year := year proj;
                   Ledger.ebitda := ebitda proj;
                   Ledger.interest_expense := total_interest;
                   Ledger.fcf := fcf;
                   Ledger.mandatory_amortization := mandatory_paydown;
                   Ledger.cash_sweep := sweep_paydown;
                   Ledger.revolver_change := revolver_change;
                   Ledger.ending_debt := pysum (dict_values bal3) |} ];
            total_paydown := total_paydown s + year_paydown |}
  end.

Fixpoint run_years (ts : list DebtTranche) (original_amounts : dict)
    (max_iterations : Z) (convergence_threshold : R)
    (projs : list LBOProjection) (s : Sim) : outcome Sim :=
  match projs with
  | [] => Ok s
  | proj :: rest =>
      match year_body ts original_amounts max_iterations convergence_threshold proj s with
      | Raise e => Raise e
      | Ok s' => run_years ts original_amounts max_iterations convergence_threshold rest s'
      end
  end.

(** [xs[-1]] *)
Fixpoint last_item {A : Type} (xs : list A) : outcome A :=
  match xs with
  | [] => Raise IndexError
  | [x] => Ok x
  | _ :: r => last_item r
  end.

Definition init_sim (ts : list DebtTranche) : Sim :=
  {| debt_balances := init_balances ts;
     loop_vars := None;
     rows := [];
     total_paydown := 0 |}.

(** What [run_model] computes from the object it is called on. *)
Definition run_model_body (self : LBOModel) (max_iterations : Z)
    (convergence_threshold : R) : outcome LBOResult :=
  let years := List.length (projections self) in
  let original_amounts := init_balances (debt_tranches self) in
  match run_years (debt_tranches self) original_amounts max_iterations
          convergence_threshold (projections self)
          (init_sim (debt_tranches self)) with
  | Raise e => Raise e
  | Ok s =>
      match last_item (projections self) with
      | Raise e => Raise e
      | Ok final =>
          let final_ebitda := ebitda final in
          let exit_ev := final_ebitda * exit_multiple self in
          let exit_debt := pysum (dict_values (debt_balances s)) in
          let exit_equity := exit_ev - exit_debt in
          let moic :=
            if Rlt_dec 0 (initial_equity self)
            then exit_equity / initial_equity self else 0 in
          let irr :=
            if Rlt_dec 0 moic then
              if (0 <? years)%nat then Rpower moic (1 / INR years) - 1 else 0
            else 0 in
          Ok {| entry_equity := initial_equity self;
                exit_equity := exit_equity;
                moic := moic;
                irr := irr;
                exit_enterprise_value := exit_ev;
                exit_net_debt := exit_debt;
                total_debt_paydown := total_paydown s;
                yearly_results := rows s |}
      end
  end.

(** ** Methods of the mutable model object *)

Definition LBO (A : Type) : Type := LBOModel -> outcome A * LBOModel.

Definition ret {A : Type} (a : A) : LBO A := fun self => (Ok a, self).

Definition bind {A B : Type} (c : LBO A) (f : A -> LBO B) : LBO B :=
  fun self =>
    match c self with
    | (Ok a, self') => f a self'
    | (Raise e, self') => (Raise e, self')
    end.

Notation "x <- c ;; k" := (bind c (fun x => k))
  (at level 61, c at next level, right associativity).
Notation "c ;;; k" := (bind c (fun _ => k))
  (at level 61, right associativity).

Definition lift {A : Type} (o : outcome A) : LBO A := fun self => (o, self).

Definition get_self : LBO LBOModel := fun self => (Ok self, self).

(** [self.entry_multiple = v] *)
Definition set_entry_multiple (v : R) : LBO unit :=
  fun self =>
    (Ok tt,
     {| entry_ebitda := entry_ebitda self;
        entry_multiple := v;
        debt_tranches := debt_tranches self;
        projections := projections self;
        exit_multiple := exit_multiple self;
        transaction_fees_pct := transaction_fees_pct self;
        financing_fees_pct := financing_fees_pct self;
        min_cash := min_cash self |}).

Definition with_tranches (self : LBOModel) (ts : list DebtTranche) : LBOModel :=
  {| entry_ebitda := entry_ebitda self;
     entry_multiple := entry_multiple self;
     debt_tranches := ts;
     projections := projections self;
     exit_multiple := exit_multiple self;
     transaction_fees_pct := transaction_fees_pct self;
     financing_fees_pct := financing_fees_pct self;
     min_cash := min_cash self |}.

(** [t.amount = v] *)
Definition with_amount (t : DebtTranche) (v : R) : DebtTranche :=
  {| name := name t;
     amount := v;
     interest_rate := interest_rate t;
     amortization_rate := amortization_rate t;
     is_revolver := is_revolver t;
     revolver_commitment := revolver_commitment t;
     cash_sweep_priority := cash_sweep_priority t |}.

(** [run_model] reads the object and writes only its own local variables. *)
Definition run_model (max_iterations : Z) (convergence_threshold : R)
  : LBO LBOResult :=
  fun self => (run_model_body self max_iterations convergence_threshold, self).

(** [for t in self.debt_tranches:
       t.amount = t.amount * scale / (self.entry_multiple / original_multiple)]
    An exception leaves the tranches already visited with their new amount. *)
Fixpoint rescale_loop (ts : list DebtTranche)
    (scale entry_mult original_multiple : R) : outcome unit * list DebtTranche :=
  match ts with
  | [] => (Ok tt, [])
  | t :: rest =>
      match pydiv entry_mult original_multiple with
      | Raise e => (Raise e, t :: rest)
      | Ok q =>
          match pydiv (amount t * scale) q with
          | Raise e => (Raise e, t :: rest)
          | Ok a =>
              let '(o, rest') := rescale_loop rest scale entry_mult original_multiple in
              (o, with_amount t a :: rest')
          end
      end
  end.

Definition rescale_debt (scale original_multiple : R) : LBO unit :=
  fun self =>
    let '(o, ts) := rescale_loop (debt_tranches self) scale
                      (entry_multiple self) original_multiple in
    (o, with_tranches self ts).

(** One trial up to the call of [run_model]: the state it returns is the
    object [run_model] is called on. *)
Definition prepare_trial (mid original_multiple : R) : LBO unit :=
  set_entry_multiple mid ;;;
  scale <- lift (pydiv mid original_multiple) ;;
  rescale_debt scale original_multiple.

(** The [for _ in range(50)] loop and the statements after it. *)
Fixpoint search (iterations : nat)
    (original_multiple target_irr tolerance low high : R) : LBO (option R) :=
  match iterations with
  | O => set_entry_multiple original_multiple ;;; ret None
  | S k =>
      let mid := (low + high) / 2 in
      prepare_trial mid original_multiple ;;;
      result <- run_model 10 (1 / 100) ;;
      if Rlt_dec (Rabs (irr result - target_irr)) tolerance then
        set_entry_multiple original_multiple ;;; ret (Some mid)
      else if Rlt_dec target_irr (irr result) then
        search k original_multiple target_irr tolerance mid high
      else
        search k original_multiple target_irr tolerance low mid
  end.

Definition solve_for_entry_multiple (target_irr min_multiple max_multiple
    tolerance : R) : LBO (option R) :=
  self <- get_self ;;
  search 50 (entry_multiple self) target_irr tolerance min_multiple max_multiple.

(** [self.exit_multiple = v], used to compare two models that differ in
    the exit multiple only. *)
Definition with_exit_multiple (self : LBOModel) (v : R) : LBOModel :=
  {| entry_ebitda := entry_ebitda self;
     entry_multiple := entry_multiple self;
     debt_tranches := debt_tranches self;
     projections := projections self;
     exit_multiple := v;
     transaction_fees_pct := transaction_fees_pct self;
     financing_fees_pct := financing_fees_pct self;
     min_cash := min_cash self |}.

(** ** Example models *)

(** The capital structure of [test_custom_debt_structure]. *)
Definition senior : DebtTranche :=
  {| name := "Senior"; amount := 400; interest_rate := 7 / 100;
     amortization_rate := 1 / 100; is_revolver := false;
     revolver_commitment := 0; cash_sweep_priority := 1 |}.

Definition mezz : DebtTranche :=
  {| name := "Mezz"; amount := 150; interest_rate := 12 / 100;
     amortization_rate := 0; is_revolver := false;
     revolver_commitment := 0; cash_sweep_priority := 2 |}.

Definition custom_projection (i : nat) : LBOProjection :=
  {| year := Z.of_nat i;
     ebitda := 100 * (105 / 100) ^ i;
     capex := 15 * (105 / 100) ^ i;
     delta_nwc := 0;
     tax_rate := 25 / 100;
     depreciation := 10 * (105 / 100) ^ i |}.

Definition custom_deal : LBOModel :=
  {| entry_ebitda := 100;
     entry_multiple := 10;
     debt_tranches := [senior; mezz];
     projections := map custom_projection [1; 2; 3; 4; 5]%nat;
     exit_multiple := 10;
     transaction_fees_pct := 2 / 100;
     financing_fees_pct := 2 / 100;
     min_cash := 0 |}.

(** A one-year deal with round numbers: 400 of term debt at 10%, no
    amortization, no taxes, no fees. *)
Definition term_loan : DebtTranche :=
  {| name := "Term Loan"; amount := 400; interest_rate := 1 / 10;
     amortization_rate := 0; is_revolver := false;
     revolver_commitment := 0; cash_sweep_priority := 1 |}.

Definition flat_year : LBOProjection :=
  {| year := 1; ebitda := 100; capex := 0; delta_nwc := 0;
     tax_rate := 0; depreciation := 0 |}.

Definition one_year_deal_at (entry exit : R) : LBOModel :=
  {| entry_ebitda := 100;
     entry_multiple := entry;
     debt_tranches := [term_loan];
     projections := [flat_year];
     exit_multiple := exit;
     transaction_fees_pct := 0;
     financing_fees_pct := 0;
     min_cash := 0 |}.

Definition one_year_deal : LBOModel := one_year_deal_at 8 8.

(** The same deal with an empty projection list. *)
Definition no_horizon_deal : LBOModel :=
  {| entry_ebitda := 100;
     entry_multiple := 8;
     debt_tranches := [term_loan];
     projections := [];
     exit_multiple := 8;
     transaction_fees_pct := 0;
     financing_fees_pct := 0;
     min_cash := 0 |}.

(** The same company bought for 4x with 500 of debt: the equity cheque is
    negative. *)
Definition overlevered_deal_at (entry exit : R) : LBOModel :=
  {| entry_ebitda := 100;
     entry_multiple := entry;
     debt_tranches := [with_amount term_loan 500];
     projections := [flat_year];
     exit_multiple := exit;
     transaction_fees_pct := 0;
     financing_fees_pct := 0;
     min_cash := 0 |}.

Definition overlevered_deal : LBOModel := overlevered_deal_at 4 10.





(** ** Predicates and reference definitions used by the statements *)

(** One pass without iteration, in the words of the specification: the
    interest on the balances at the start of the year, and the free cash
    flow formula applied to it. *)
Definition single_pass_interest (ts : list DebtTranche) (start_balances : dict) : R :=
  fold_right (fun t acc => dict_get start_balances (name t) * interest_rate t + acc) 0 ts.

Definition single_pass_fcf (proj : LBOProjection) (interest : R) : R :=
  ebitda proj - interest
  - Rmax 0 ((ebitda proj - depreciation proj - interest) * tax_rate proj)
  - capex proj - delta_nwc proj.

Definition dict_nonneg (d : dict) : Prop := Forall (fun v => 0 <= v) (dict_values d).

Definition valid_tranches (ts : list DebtTranche) : Prop :=
  Forall (fun t => 0 <= amount t /\ 0 <= revolver_commitment t) ts.

Definition priority_le (a b : DebtTranche) : Prop :=
  (cash_sweep_priority a <= cash_sweep_priority b)%Z.

(** The one-year deal with a second tranche of the same name. *)
Definition twin_name_deal : LBOModel :=
  {| entry_ebitda := 100;
     entry_multiple := 8;
     debt_tranches := [term_loan; with_amount term_loan 100];
     projections := [flat_year];
     exit_multiple := 8;
     transaction_fees_pct := 0;
     financing_fees_pct := 0;
     min_cash := 0 |}.

(** Intermediate values of the example runs. *)
Definition twin_row : Ledger.t :=
  {| Ledger.year := 1; Ledger.ebitda := 100; Ledger.interest_expense := 20;
     Ledger.fcf := 80; Ledger.mandatory_amortization := 0; Ledger.cash_sweep := 80;
     Ledger.revolver_change := 0; Ledger.ending_debt := 20 |}.

Definition one_year_row : Ledger.t :=
  {| Ledger.year := 1; Ledger.ebitda := 100; Ledger.interest_expense := 40;
     Ledger.fcf := 60; Ledger.mandatory_amortization := 0; Ledger.cash_sweep := 60;
     Ledger.revolver_change := 0; Ledger.ending_debt := 340 |}.




(** ** Evaluation of closed real expressions *)

(** Decide one comparison of the goal between closed real expressions. *)
Ltac rdecide :=
  match goal with
  | |- context [Rmin ?a ?b] =>
      first [ rewrite (Rmin_left a b) by lra | rewrite (Rmin_right a b) by lra ]
  | |- context [Rmax ?a ?b] =>
      first [ rewrite (Rmax_left a b) by lra | rewrite (Rmax_right a b) by lra ]
  | |- context [Rabs ?a] =>
      first [ rewrite (Rabs_pos_eq a) by lra | rewrite (Rabs_left1 a) by lra ]
  | |- context [Rlt_dec ?a ?b] =>
      first [ destruct (Rlt_dec a b); [ | exfalso; lra ]
            | destruct (Rlt_dec a b); [ exfalso; lra | ] ]
  | |- context [Rle_dec ?a ?b] =>
      first [ destruct (Rle_dec a b); [ | exfalso; lra ]
            | destruct (Rle_dec a b); [ exfalso; lra | ] ]
  | |- context [Req_dec_T ?a ?b] =>
      first [ destruct (Req_dec_T a b); [ | exfalso; lra ]
            | destruct (Req_dec_T a b); [ exfalso; lra | ] ]
  end.

Ltac reval :=
  cbn;
  unfold total_interest_of, _calculate_free_cash_flow, cash_sweep, pysum,
    interest_expense, annual_amortization;
  cbn;
  repeat (rdecide; cbn);
  repeat (f_equal; try lra).

(** ** The ledger as an audit trail *)

(** [year_paydown] of a ledger row. *)
Definition row_paydown (row : Ledger.t) : R :=
  Ledger.mandatory_amortization row + Ledger.cash_sweep row
  - Ledger.revolver_change row.

(** Each row's ending debt is the debt before it minus the row's
    paydown; [d] is the debt before the first row. *)
Fixpoint ledger_chain (d : R) (ledger : list Ledger.t) : Prop :=
  match ledger with
  | [] => True
  | row :: rest =>
      Ledger.ending_debt row = d - row_paydown row
      /\ ledger_chain (Ledger.ending_debt row) rest
  end.

(** The ending debt of the last row, [d] for an empty ledger. *)
Definition closing_debt (d : R) (ledger : list Ledger.t) : R :=
  last (map Ledger.ending_debt ledger) d.


(** [self.entry_multiple = v] on a copy. *)
Definition with_entry_multiple (self : LBOModel) (v : R) : LBOModel :=
  snd (set_entry_multiple v self).

(** A ledger row without revolver activity and with non-negative
    payments. *)
Definition quiet_row (row : Ledger.t) : Prop :=
  Ledger.revolver_change row = 0
  /\ 0 <= Ledger.mandatory_amortization row
  /\ 0 <= Ledger.cash_sweep row.

(** ** The convenience constructor: [simple_lbo] *)

(** One element of the projection list built by [simple_lbo], for the
    year [n] of [range(1, hold_years + 1)]. *)
Definition simple_projection (entry_ebitda ebitda_growth capex_pct tax : R)
    (n : nat) : LBOProjection :=
  let e := entry_ebitda * (1 + ebitda_growth) ^ n in
  {| year := Z.of_nat n;
     ebitda := e;
     capex := e * capex_pct;
     delta_nwc := 0;
     tax_rate := tax;
     depreciation := e * (10 / 100) |}.

Definition simple_lbo (entry_ebitda entry_multiple leverage_turns interest_rate
    exit_multiple : R) (hold_years : Z) (ebitda_growth capex_pct tax_rate : R)
  : LBOModel :=
  let debt_amount := entry_ebitda * leverage_turns in
  let debt :=
    {| name := "Unitranche";
       amount := debt_amount;
       interest_rate := interest_rate;
       amortization_rate := 1 / 100;
       is_revolver := false;
       revolver_commitment := 0;
       cash_sweep_priority := 1 |} in
  {| entry_ebitda := entry_ebitda;
     entry_multiple := entry_multiple;
     debt_tranches := [debt];
     projections :=
       map (simple_projection entry_ebitda ebitda_growth capex_pct tax_rate)
           (seq 1 (Z.to_nat hold_years));
     exit_multiple := exit_multiple;
     transaction_fees_pct := 2 / 100;
     financing_fees_pct := 2 / 100;
     min_cash := 0 |}.

(** ** Sensitivity tables: [src/company_valuation/sensitivity.py]

    A cell of [results] is a float; the cells that [create_table] fills
    after an exception hold [float('nan')], here [NaN].  [create_table]
    catches every [Exception] of [calc_func], so it returns a table on
    every input.  [calc_func] may write to the object it closes over:
    it is a computation on a state [S]. *)

Inductive cell : Type :=
| Num (x : R)
| NaN.

(** [l[i]] for a Python [int]: negative indices count from the end. *)
Definition py_getitem {A : Type} (l : list A) (i : Z) : outcome A :=
  let n := Z.of_nat (List.length l) in
  let j := if (i <? 0)%Z then (i + n)%Z else i in
  if ((0 <=? j) && (j <? n))%Z then
    match nth_error l (Z.to_nat j) with
    | Some a => Ok a
    | None => Raise IndexError
    end
  else Raise IndexError.

(** [l.index(x)]; [None] stands for the [ValueError] of a missing value,
    which [create_table] catches. *)
Fixpoint list_index (l : list R) (x : R) : option nat :=
  match l with
  | [] => None
  | y :: rest =>
      if Req_dec_T y x then Some O
      else match list_index rest x with
           | Some i => Some (S i)
           | None => None
           end
  end.

Module SensitivityTable.
Record t : Type := mk {
  row_variable : string;
  col_variable : string;
  row_values : list R;
  col_values : list R;
  results : list (list cell);
  base_row_idx : option Z;
  base_col_idx : option Z
}.

Definition base_value (self : t) : outcome (option cell) :=
  match base_row_idx self, base_col_idx self with
  | Some i, Some j =>
      match py_getitem (results self) i with
      | Raise e => Raise e
      | Ok row =>
          match py_getitem row j with
          | Raise e => Raise e
          | Ok c => Ok (Some c)
          end
      end
  | _, _ => Ok None
  end.
End SensitivityTable.

(** The inner loop of [create_table], over [col_values]. *)
Fixpoint fill_row {S : Type} (calc_func : R -> R -> S -> outcome R * S)
    (row_val : R) (col_values : list R) (st : S) : list cell * S :=
  match col_values with
  | [] => ([], st)
  | col_val :: rest =>
      let '(o, st1) := calc_func row_val col_val st in
      let result := match o with Ok x => Num x | Raise _ => NaN end in
      let '(row_results, st2) := fill_row calc_func row_val rest st1 in
      (result :: row_results, st2)
  end.

(** The outer loop, over [row_values]. *)
Fixpoint fill_rows {S : Type} (calc_func : R -> R -> S -> outcome R * S)
    (row_values col_values : list R) (st : S) : list (list cell) * S :=
  match row_values with
  | [] => ([], st)
  | row_val :: rest =>
      let '(row_results, st1) := fill_row calc_func row_val col_values st in
      let '(results, st2) := fill_rows calc_func rest col_values st1 in
      (row_results :: results, st2)
  end.

Definition find_base (values : list R) (base : option R) : option Z :=
  match base with
  | None => None
  | Some b =>
      match list_index values b with
      | Some i => Some (Z.of_nat i)
      | None => None
      end
  end.

Definition create_table {S : Type} (calc_func : R -> R -> S -> outcome R * S)
    (row_variable col_variable : string) (row_values col_values : list R)
    (base_row_value base_col_value : option R) (st : S)
  : SensitivityTable.t * S :=
  let '(results, st') := fill_rows calc_func row_values col_values st in
  ({| SensitivityTable.row_variable := row_variable;
      SensitivityTable.col_variable := col_variable;
      SensitivityTable.row_values := row_values;
      SensitivityTable.col_values := col_values;
      SensitivityTable.results := results;
      SensitivityTable.base_row_idx := find_base row_values base_row_value;
      SensitivityTable.base_col_idx := find_base col_values base_col_value |},
   st').

(** [self.exit_multiple = v] *)
Definition set_exit_multiple (v : R) : LBO unit :=
  fun self => (Ok tt, with_exit_multiple self v).

(** The closure [calc_irr] of [lbo_sensitivity]; [try ... finally] runs
    the two restoring assignments whether [run_model] returns or
    raises. *)
Definition calc_irr (base_entry base_exit : R) (entry exit_mult : R)
  : LBOModel -> outcome R * LBOModel :=
  fun base_lbo =>
    let '(_, m1) := set_entry_multiple entry base_lbo in
    let '(_, m2) := set_exit_multiple exit_mult m1 in
    let '(o, m3) := run_model 10 (1 / 100) m2 in
    let '(_, m4) := set_entry_multiple base_entry m3 in
    let '(_, m5) := set_exit_multiple base_exit m4 in
    (match o with Ok result => Ok (irr result) | Raise e => Raise e end, m5).

Definition lbo_sensitivity (entry_multiples exit_multiples : list R)
  : LBOModel -> SensitivityTable.t * LBOModel :=
  fun base_lbo =>
    let base_entry := entry_multiple base_lbo in
    let base_exit := exit_multiple base_lbo in
    create_table (calc_irr base_entry base_exit)
      "Entry Multiple" "Exit Multiple" entry_multiples exit_multiples
      (Some base_entry) (Some base_exit) base_lbo.

(** The cell that the sensitivity table holds for one pair of multiples. *)
Definition irr_cell (base_lbo : LBOModel) (entry exit_mult : R) : cell :=
  match run_model_body (with_exit_multiple (with_entry_multiple base_lbo entry) exit_mult)
          10 (1 / 100) with
  | Ok result => Num (irr result)
  | Raise _ => NaN
  end.

(** ** The engine on binary64 numbers

    Module [B64] translates [src/company_valuation/lbo.py] once more,
    with every [float] a binary64 number ([PrimFloat.float]) and every
    arithmetic operation the correctly rounded IEEE 754 operation, in the
    order in which the source writes them.  It evaluates the engine at
    concrete inputs, where rounding decides what the code returns; the
    definitions have the names and the shape of the ones above.

    An [int] that meets a float ([0] in [max(0, x)], [2] in
    [(low + high) / 2], the start value of [sum]) is converted to the
    float of the same value first.

    [sum] is the left fold that CPython performs up to version 3.11;
    from 3.12 on it compensates the rounding error of a float sum.  On a
    list of at most one number the two agree, and the models evaluated
    below have one tranche.

    [x ** y] is the [pow] of the C library, which IEEE 754 does not fix
    bit for bit: it is the parameter [libm_pow], except for the exponent
    [1], where [x] itself is the result. *)
Module B64.

Local Open Scope float_scope.

Definition pysum (xs : list float) : float := fold_left PrimFloat.add xs 0.

(** [min(a, b)] and [max(a, b)] return the first argument unless the
    second is strictly smaller (strictly larger). *)
Definition pymin (a b : float) : float := if b <? a then b else a.

Definition pymax (a b : float) : float := if a <? b then b else a.

Definition pydiv (a b : float) : outcome float :=
  if b =? 0 then Raise ZeroDivisionError else Ok (a / b).

(** [float(n)] for an [int] [n >= 0] below [2 ^ 53]. *)
Fixpoint of_nat (n : nat) : float :=
  match n with
  | O => 0
  | S k => of_nat k + 1
  end.

Definition dict : Type := list (string * float).

Fixpoint dict_set (d : dict) (k : string) (v : float) : dict :=
  match d with
  | [] => [(k, v)]
  | (k', v') :: r =>
      if String.eqb k k' then (k', v) :: r else (k', v') :: dict_set r k v
  end.

Fixpoint dict_get (d : dict) (k : string) : float :=
  match d with
  | [] => 0
  | (k', v') :: r => if String.eqb k k' then v' else dict_get r k
  end.

Definition dict_values (d : dict) : list float := map snd d.

Record DebtTranche : Type := mkDebtTranche {
  name : string;
  amount : float;
  interest_rate : float;
  amortization_rate : float;
  is_revolver : bool;
  revolver_commitment : float;
  cash_sweep_priority : Z
}.

Definition annual_amortization (t : DebtTranche) (original_amount : float) : float :=
  original_amount * amortization_rate t.

Definition interest_expense (t : DebtTranche) (balance : float) : float :=
  balance * interest_rate t.

Record LBOProjection : Type := mkLBOProjection {
  year : Z;
  ebitda : float;
  capex : float;
  delta_nwc : float;
  tax_rate : float;
  depreciation : float
}.

Module Ledger.
Record t : Type := mk {
  year : Z;
  ebitda : float;
  interest_expense : float;
  fcf : float;
  mandatory_amortization : float;
  cash_sweep : float;
  revolver_change : float;
  ending_debt : float
}.
End Ledger.

Record LBOResult : Type := mkLBOResult {
  entry_equity : float;
  exit_equity : float;
  moic : float;
  irr : float;
  exit_enterprise_value : float;
  exit_net_debt : float;
  total_debt_paydown : float;
  yearly_results : list Ledger.t
}.

Module SourcesAndUses.
Record t : Type := mk {
  term_loan : float;
  revolver_draw : float;
  other_debt : float;
  sponsor_equity : float;
  rollover_equity : float;
  equity_purchase : float;
  refinance_debt : float;
  transaction_fees : float;
  financing_fees : float
}.

Definition total_sources (s : t) : float :=
  term_loan s + revolver_draw s + other_debt s
  + sponsor_equity s + rollover_equity s.

Definition total_uses (s : t) : float :=
  equity_purchase s + refinance_debt s + transaction_fees s + financing_fees s.

Definition is_balanced (s : t) (tolerance : float) : bool :=
  abs (total_sources s - total_uses s) <? tolerance.
End SourcesAndUses.

Record LBOModel : Type := mkLBOModel {
  entry_ebitda : float;
  entry_multiple : float;
  debt_tranches : list DebtTranche;
  projections : list LBOProjection;
  exit_multiple : float;
  transaction_fees_pct : float;
  financing_fees_pct : float;
  min_cash : float
}.

Definition purchase_price (m : LBOModel) : float :=
  entry_ebitda m * entry_multiple m.

Definition total_initial_debt (m : LBOModel) : float :=
  pysum (map amount (debt_tranches m)).

Definition transaction_fees (m : LBOModel) : float :=
  purchase_price m * transaction_fees_pct m.

Definition financing_fees (m : LBOModel) : float :=
  total_initial_debt m * financing_fees_pct m.

Definition initial_equity (m : LBOModel) : float :=
  purchase_price m + transaction_fees m + financing_fees m
  - total_initial_debt m.

Definition sources_and_uses (m : LBOModel) : SourcesAndUses.t :=
  let term_loan :=
    pysum (map amount (filter (fun t => negb (is_revolver t)) (debt_tranches m))) in
  let revolver :=
    pysum (map amount (filter (fun t => is_revolver t) (debt_tranches m))) in
  {| SourcesAndUses.term_loan := term_loan;
     SourcesAndUses.revolver_draw := revolver;
     SourcesAndUses.other_debt := 0;
     SourcesAndUses.sponsor_equity := initial_equity m;
     SourcesAndUses.rollover_equity := 0;
     SourcesAndUses.equity_purchase := purchase_price m;
     SourcesAndUses.refinance_debt := 0;
     SourcesAndUses.transaction_fees := transaction_fees m;
     SourcesAndUses.financing_fees := financing_fees m |}.

Definition _calculate_free_cash_flow (proj : LBOProjection)
    (interest : float) : float :=
  let taxable_income := ebitda proj - depreciation proj - interest in
  let taxes := pymax 0 (taxable_income * tax_rate proj) in
  ebitda proj - interest - taxes - capex proj - delta_nwc proj.

Definition init_balances (ts : list DebtTranche) : dict :=
  fold_left (fun d t => dict_set d (name t) (amount t)) ts [].

Definition total_interest_of (ts : list DebtTranche) (debt_balances : dict) : float :=
  pysum (map (fun t => interest_expense t (dict_get debt_balances (name t))) ts).

Fixpoint circularity_loop (iterations : nat) (ts : list DebtTranche)
    (proj : LBOProjection) (debt_balances : dict)
    (convergence_threshold prev : float) (vars : option (float * float))
  : option (float * float) :=
  match iterations with
  | O => vars
  | S k =>
      let total_interest := total_interest_of ts debt_balances in
      let fcf := _calculate_free_cash_flow proj total_interest in
      if abs (total_interest - prev) <? convergence_threshold
      then Some (total_interest, fcf)
      else circularity_loop k ts proj debt_balances convergence_threshold
             total_interest (Some (total_interest, fcf))
  end.

Fixpoint amortization_loop (ts : list DebtTranche) (original_amounts : dict)
    (debt_balances : dict) (mandatory_paydown : float) : dict * float :=
  match ts with
  | [] => (debt_balances, mandatory_paydown)
  | t :: rest =>
      if is_revolver t
      then amortization_loop rest original_amounts debt_balances mandatory_paydown
      else
        let amort := pymin (annual_amortization t (dict_get original_amounts (name t)))
                           (dict_get debt_balances (name t)) in
        amortization_loop rest original_amounts
          (dict_set debt_balances (name t) (dict_get debt_balances (name t) - amort))
          (mandatory_paydown + amort)
  end.

Fixpoint insert_by_priority (t : DebtTranche) (l : list DebtTranche)
  : list DebtTranche :=
  match l with
  | [] => [t]
  | u :: r =>
      if (cash_sweep_priority t <=? cash_sweep_priority u)%Z
      then t :: u :: r
      else u :: insert_by_priority t r
  end.

Definition sorted_by_priority (l : list DebtTranche) : list DebtTranche :=
  fold_right insert_by_priority [] l.

Definition non_revolvers (ts : list DebtTranche) : list DebtTranche :=
  filter (fun t => negb (is_revolver t)) ts.

Fixpoint sweep_loop (sorted_tranches : list DebtTranche) (debt_balances : dict)
    (sweep_paydown remaining_cash : float) : dict * float :=
  match sorted_tranches with
  | [] => (debt_balances, sweep_paydown)
  | t :: rest =>
      if remaining_cash <=? 0 then (debt_balances, sweep_paydown)
      else
        let paydown := pymin remaining_cash (dict_get debt_balances (name t)) in
        sweep_loop rest
          (dict_set debt_balances (name t) (dict_get debt_balances (name t) - paydown))
          (sweep_paydown + paydown) (remaining_cash - paydown)
  end.

Definition cash_sweep (ts : list DebtTranche) (debt_balances : dict)
    (cash_for_sweep : float) : dict * float :=
  if 0 <? cash_for_sweep
  then sweep_loop (sorted_by_priority (non_revolvers ts)) debt_balances 0 cash_for_sweep
  else (debt_balances, 0).

Fixpoint revolver_loop (ts : list DebtTranche) (debt_balances : dict)
    (cash_for_sweep sweep_paydown revolver_change : float) : dict * float :=
  match ts with
  | [] => (debt_balances, revolver_change)
  | t :: rest =>
      if is_revolver t then
        if cash_for_sweep <? 0 then
          let draw := pymin (- cash_for_sweep)
                            (revolver_commitment t - dict_get debt_balances (name t)) in
          revolver_loop rest
            (dict_set debt_balances (name t) (dict_get debt_balances (name t) + draw))
            cash_for_sweep sweep_paydown draw
        else if (0 <? cash_for_sweep) && (sweep_paydown =? 0) then
          let repay := pymin cash_for_sweep (dict_get debt_balances (name t)) in
          revolver_loop rest
            (dict_set debt_balances (name t) (dict_get debt_balances (name t) - repay))
            cash_for_sweep sweep_paydown (- repay)
        else revolver_loop rest debt_balances cash_for_sweep sweep_paydown revolver_change
      else revolver_loop rest debt_balances cash_for_sweep sweep_paydown revolver_change
  end.

Record Sim : Type := mkSim {
  debt_balances : dict;
  loop_vars : option (float * float);
  rows : list Ledger.t;
  total_paydown : float
}.

Definition year_body (ts : list DebtTranche) (original_amounts : dict)
    (max_iterations : Z) (convergence_threshold : float)
    (proj : LBOProjection) (s : Sim) : outcome Sim :=
  let vars := circularity_loop (Z.to_nat max_iterations) ts proj
                (debt_balances s) convergence_threshold 0 (loop_vars s) in
  let '(bal1, mandatory_paydown) :=
    amortization_loop ts original_amounts (debt_balances s) 0 in
  match vars with
  | None => Raise UnboundLocalError
  | Some (total_interest, fcf) =>
      let cash_for_sweep := fcf - mandatory_paydown in
      let '(bal2, sweep_paydown) := cash_sweep ts bal1 cash_for_sweep in
      let '(bal3, revolver_change) :=
        revolver_loop ts bal2 cash_for_sweep sweep_paydown 0 in
      let year_paydown := mandatory_paydown + sweep_paydown - revolver_change in
      Ok {| debt_balances := bal3;
            loop_vars := vars;
            rows := rows s ++
              [ {| Ledger.year := year proj;
                   Ledger.ebitda := ebitda proj;
                   Ledger.interest_expense := total_interest;
                   Ledger.fcf := fcf;
                   Ledger.mandatory_amortization := mandatory_paydown;
                   Ledger.cash_sweep := sweep_paydown;
                   Ledger.revolver_change := revolver_change;
                   Ledger.ending_debt := pysum (dict_values bal3) |} ];
            total_paydown := total_paydown s + year_paydown |}
  end.

Fixpoint run_years (ts : list DebtTranche) (original_amounts : dict)
    (max_iterations : Z) (convergence_threshold : float)
    (projs : list LBOProjection) (s : Sim) : outcome Sim :=
  match projs with
  | [] => Ok s
  | proj :: rest =>
      match year_body ts original_amounts max_iterations convergence_threshold proj s with
      | Raise e => Raise e
      | Ok s' => run_years ts original_amounts max_iterations convergence_threshold rest s'
      end
  end.

Definition init_sim (ts : list DebtTranche) : Sim :=
  {| debt_balances := init_balances ts;
     loop_vars := None;
     rows := [];
     total_paydown := 0 |}.

(** [self.entry_multiple = v] *)
Definition with_entry_multiple (self : LBOModel) (v : float) : LBOModel :=
  {| entry_ebitda := entry_ebitda self;
     entry_multiple := v;
     debt_tranches := debt_tranches self;
     projections := projections self;
     exit_multiple := exit_multiple self;
     transaction_fees_pct := transaction_fees_pct self;
     financing_fees_pct := financing_fees_pct self;
     min_cash := min_cash self |}.

Definition with_tranches (self : LBOModel) (ts : list DebtTranche) : LBOModel :=
  {| entry_ebitda := entry_ebitda self;
     entry_multiple := entry_multiple self;
     debt_tranches := ts;
     projections := projections self;
     exit_multiple := exit_multiple self;
     transaction_fees_pct := transaction_fees_pct self;
     financing_fees_pct := financing_fees_pct self;
     min_cash := min_cash self |}.

(** [t.amount = v] *)
Definition with_amount (t : DebtTranche) (v : float) : DebtTranche :=
  {| name := name t;
     amount := v;
     interest_rate := interest_rate t;
     amortization_rate := amortization_rate t;
     is_revolver := is_revolver t;
     revolver_commitment := revolver_commitment t;
     cash_sweep_priority := cash_sweep_priority t |}.

(** [for t in self.debt_tranches:
       t.amount = t.amount * scale / (self.entry_multiple / original_multiple)] *)
Fixpoint rescale_loop (ts : list DebtTranche)
    (scale entry_mult original_multiple : float)
  : outcome unit * list DebtTranche :=
  match ts with
  | [] => (Ok tt, [])
  | t :: rest =>
      match pydiv entry_mult original_multiple with
      | Raise e => (Raise e, t :: rest)
      | Ok q =>
          match pydiv (amount t * scale) q with
          | Raise e => (Raise e, t :: rest)
          | Ok a =>
              let '(o, rest') := rescale_loop rest scale entry_mult original_multiple in
              (o, with_amount t a :: rest')
          end
      end
  end.

(** One trial of the solver up to the call of [run_model]. *)
Definition prepare_trial (mid original_multiple : float) (self : LBOModel)
  : outcome unit * LBOModel :=
  let self1 := with_entry_multiple self mid in
  match pydiv mid original_multiple with
  | Raise e => (Raise e, self1)
  | Ok scale =>
      let '(o, ts) := rescale_loop (debt_tranches self1) scale
                        (entry_multiple self1) original_multiple in
      (o, with_tranches self1 ts)
  end.

Section Pow.

Variable libm_pow : float -> float -> float.

Definition py_pow (x y : float) : float :=
  if y =? 1 then x else libm_pow x y.

Definition run_model (self : LBOModel) (max_iterations : Z)
    (convergence_threshold : float) : outcome LBOResult :=
  let years := List.length (projections self) in
  let original_amounts := init_balances (debt_tranches self) in
  match run_years (debt_tranches self) original_amounts max_iterations
          convergence_threshold (projections self)
          (init_sim (debt_tranches self)) with
  | Raise e => Raise e
  | Ok s =>
      match last_item (projections self) with
      | Raise e => Raise e
      | Ok final =>
          let final_ebitda := ebitda final in
          let exit_ev := final_ebitda * exit_multiple self in
          let exit_debt := pysum (dict_values (debt_balances s)) in
          let exit_equity := exit_ev - exit_debt in
          let moic :=
            if 0 <? initial_equity self
            then exit_equity / initial_equity self else 0 in
          let irr :=
            if (0 <? moic) && (0 <? years)%nat
            then py_pow moic (1 / of_nat years) - 1 else 0 in
          Ok {| entry_equity := initial_equity self;
                exit_equity := exit_equity;
                moic := moic;
                irr := irr;
                exit_enterprise_value := exit_ev;
                exit_net_debt := exit_debt;
                total_debt_paydown := total_paydown s;
                yearly_results := rows s |}
      end
  end.

(** The [for _ in range(50)] loop of [solve_for_entry_multiple] and the
    statements after it, on the object [self]. *)
Fixpoint search (iterations : nat)
    (original_multiple target_irr tolerance low high : float) (self : LBOModel)
  : outcome (option float) * LBOModel :=
  match iterations with
  | O => (Ok None, with_entry_multiple self original_multiple)
  | S k =>
      let mid := (low + high) / 2 in
      match prepare_trial mid original_multiple self with
      | (Raise e, self1) => (Raise e, self1)
      | (Ok _, self1) =>
          match run_model self1 10 0.01 with
          | Raise e => (Raise e, self1)
          | Ok result =>
              if abs (irr result - target_irr) <? tolerance then
                (Ok (Some mid), with_entry_multiple self1 original_multiple)
              else if target_irr <? irr result then
                search k original_multiple target_irr tolerance mid high self1
              else
                search k original_multiple target_irr tolerance low mid self1
          end
      end
  end.

Definition solve_for_entry_multiple (target_irr min_multiple max_multiple
    tolerance : float) (self : LBOModel) : outcome (option float) * LBOModel :=
  search 50 (entry_multiple self) target_irr tolerance min_multiple max_multiple self.

Definition simple_projection (entry_ebitda ebitda_growth capex_pct tax : float)
    (n : nat) : LBOProjection :=
  let e := entry_ebitda * py_pow (1 + ebitda_growth) (of_nat n) in
  {| year := Z.of_nat n;
     ebitda := e;
     capex := e * capex_pct;
     delta_nwc := 0;
     tax_rate := tax;
     depreciation := e * 0.10 |}.

Definition simple_lbo (entry_ebitda entry_multiple leverage_turns interest_rate
    exit_multiple : float) (hold_years : Z) (ebitda_growth capex_pct tax_rate : float)
  : LBOModel :=
  let debt_amount := entry_ebitda * leverage_turns in
  let debt :=
    {| name := "Unitranche";
       amount := debt_amount;
       interest_rate := interest_rate;
       amortization_rate := 0.01;
       is_revolver := false;
       revolver_commitment := 0;
       cash_sweep_priority := 1 |} in
  {| entry_ebitda := entry_ebitda;
     entry_multiple := entry_multiple;
     debt_tranches := [debt];
     projections :=
       map (simple_projection entry_ebitda ebitda_growth capex_pct tax_rate)
           (seq 1 (Z.to_nat hold_years));
     exit_multiple := exit_multiple;
     transaction_fees_pct := 0.02;
     financing_fees_pct := 0.02;
     min_cash := 0 |}.

End Pow.

(** The models evaluated on binary64: a term loan of [a] at 10%, the
    year [flat_year] above, no fees unless stated. *)
Definition term_loan_of (a : float) : DebtTranche :=
  {| name := "Term Loan"; amount := a; interest_rate := 0.1;
     amortization_rate := 0; is_revolver := false;
     revolver_commitment := 0; cash_sweep_priority := 1 |}.

Definition flat_year : LBOProjection :=
  {| year := 1; ebitda := 100; capex := 0; delta_nwc := 0;
     tax_rate := 0; depreciation := 0 |}.

(** [one_year_deal_at] above. *)
Definition one_year_deal_at (entry exit : float) : LBOModel :=
  {| entry_ebitda := 100;
     entry_multiple := entry;
     debt_tranches := [term_loan_of 400];
     projections := [flat_year];
     exit_multiple := exit;
     transaction_fees_pct := 0;
     financing_fees_pct := 0;
     min_cash := 0 |}.

(** The same company bought at 9x with 500 of debt. *)
Definition levered_deal : LBOModel :=
  {| entry_ebitda := 100;
     entry_multiple := 9;
     debt_tranches := [term_loan_of 500];
     projections := [flat_year];
     exit_multiple := 8;
     transaction_fees_pct := 0;
     financing_fees_pct := 0;
     min_cash := 0 |}.

(** A small deal with the default fees of 2% and 2%:
    [LBOModel(44.7, 8.9, [DebtTranche("Term Loan", 98.4, 0.1)], [], 8.9)]. *)
Definition small_deal : LBOModel :=
  {| entry_ebitda := 44.7;
     entry_multiple := 8.9;
     debt_tranches := [term_loan_of 98.4];
     projections := [];
     exit_multiple := 8.9;
     transaction_fees_pct := 0.02;
     financing_fees_pct := 0.02;
     min_cash := 0 |}.

Definition amounts (m : LBOModel) : list float := map amount (debt_tranches m).

End B64.

(** * Verification *)

(** ** Sums *)

Lemma fold_left_Rplus_acc (xs : list R) (a : R) :
  fold_left Rplus xs a = a + fold_left Rplus xs 0.
Proof.
  revert a; induction xs as [|x xs IH]; intros a; simpl.
  - lra.
  - rewrite (IH (a + x)), (IH (0 + x)). lra.
Qed.

Lemma pysum_nil : pysum [] = 0.
Proof. reflexivity. Qed.

Lemma pysum_cons (x : R) (xs : list R) : pysum (x :: xs) = x + pysum xs.
Proof.
  unfold pysum; simpl. rewrite fold_left_Rplus_acc. lra.
Qed.

Lemma pysum_nonneg (xs : list R) :
  Forall (fun x => 0 <= x) xs -> 0 <= pysum xs.
Proof.
  induction 1 as [|x xs Hx _ IH].
  - rewrite pysum_nil. lra.
  - rewrite pysum_cons. lra.
Qed.


(** ** Sources and uses *)



(** ** The interest / free-cash-flow loop *)

Lemma total_interest_of_single_pass (ts : list DebtTranche) (bal : dict) :
  total_interest_of ts bal = single_pass_interest ts bal.
Proof.
  unfold total_interest_of.
  induction ts as [|t ts IH]; simpl.
  - apply pysum_nil.
  - rewrite pysum_cons, IH. reflexivity.
Qed.

Lemma circularity_loop_S (n : nat) (ts : list DebtTranche) (proj : LBOProjection)
    (bal : dict) (th prev : R) (vars : option (R * R)) :
  circularity_loop (S n) ts proj bal th prev vars
  = Some (total_interest_of ts bal,
          _calculate_free_cash_flow proj (total_interest_of ts bal)).
Proof.
  revert prev vars; induction n as [|n IH]; intros prev vars.
  - simpl. destruct (Rlt_dec _ th); reflexivity.
  - change (circularity_loop (S (S n)) ts proj bal th prev vars)
      with (if Rlt_dec (Rabs (total_interest_of ts bal - prev)) th
            then Some (total_interest_of ts bal,
                       _calculate_free_cash_flow proj (total_interest_of ts bal))
            else circularity_loop (S n) ts proj bal th (total_interest_of ts bal)
                   (Some (total_interest_of ts bal,
                          _calculate_free_cash_flow proj (total_interest_of ts bal)))).
    destruct (Rlt_dec _ th); [reflexivity | apply IH].
Qed.

Lemma Z_to_nat_pos (z : Z) : (1 <= z)%Z -> exists n, Z.to_nat z = S n.
Proof.
  intros Hz. exists (Nat.pred (Z.to_nat z)).
  assert (0 < Z.to_nat z)%nat by lia. lia.
Qed.

Lemma circularity_loop_pos (mi : Z) (ts : list DebtTranche) (proj : LBOProjection)
    (bal : dict) (th prev : R) (vars : option (R * R)) :
  (1 <= mi)%Z ->
  circularity_loop (Z.to_nat mi) ts proj bal th prev vars
  = Some (total_interest_of ts bal,
          _calculate_free_cash_flow proj (total_interest_of ts bal)).
Proof.
  intros Hmi. destruct (Z_to_nat_pos mi Hmi) as [n ->]. apply circularity_loop_S.
Qed.

(** The loop that never runs leaves the variables as they were. *)
Lemma circularity_loop_nonpos (mi : Z) (ts : list DebtTranche) (proj : LBOProjection)
    (bal : dict) (th prev : R) (vars : option (R * R)) :
  (mi <= 0)%Z -> circularity_loop (Z.to_nat mi) ts proj bal th prev vars = vars.
Proof.
  intros Hmi. replace (Z.to_nat mi) with O by lia. reflexivity.
Qed.

(** What [year_body] does once the loop has bound its variables. *)
Lemma year_body_pos (ts : list DebtTranche) (orig : dict) (mi : Z) (th : R)
    (proj : LBOProjection) (s : Sim) :
  (1 <= mi)%Z ->
  let total_interest := total_interest_of ts (debt_balances s) in
  let fcf := _calculate_free_cash_flow proj total_interest in
  let a := amortization_loop ts orig (debt_balances s) 0 in
  let c := cash_sweep ts (fst a) (fcf - snd a) in
  let r := revolver_loop ts (fst c) (fcf - snd a) (snd c) 0 in
  year_body ts orig mi th proj s
  = Ok {| debt_balances := fst r;
          loop_vars := Some (total_interest, fcf);
          rows := rows s ++
            [ {| Ledger.year := year proj;
                 Ledger.ebitda := ebitda proj;
                 Ledger.interest_expense := total_interest;
                 Ledger.fcf := fcf;
                 Ledger.mandatory_amortization := snd a;
                 Ledger.cash_sweep := snd c;
                 Ledger.revolver_change := snd r;
                 Ledger.ending_debt := pysum (dict_values (fst r)) |} ];
          total_paydown := total_paydown s + (snd a + snd c - snd r) |}.
Proof.
  intros Hmi. cbv zeta. unfold year_body.
  rewrite (circularity_loop_pos mi ts proj (debt_balances s) th 0 (loop_vars s) Hmi).
  destruct (amortization_loop ts orig (debt_balances s) 0) as [bal1 mand]; simpl.
  destruct (cash_sweep ts bal1 _) as [bal2 sweep]; simpl.
  destruct (revolver_loop ts bal2 _ sweep 0) as [bal3 rc]; simpl.
  reflexivity.
Qed.

Lemma year_body_iterations_irrelevant (ts : list DebtTranche) (orig : dict)
    (mi : Z) (th : R) (proj : LBOProjection) (s : Sim) :
  (1 <= mi)%Z ->
  year_body ts orig mi th proj s = year_body ts orig 1 0 proj s.
Proof.
  intros Hmi. rewrite (year_body_pos ts orig mi th proj s Hmi).
  rewrite (year_body_pos ts orig 1 0 proj s); [reflexivity | lia].
Qed.

Lemma run_years_iterations_irrelevant (ts : list DebtTranche) (orig : dict)
    (mi : Z) (th : R) (projs : list LBOProjection) (s : Sim) :
  (1 <= mi)%Z ->
  run_years ts orig mi th projs s = run_years ts orig 1 0 projs s.
Proof.
  intros Hmi. revert s; induction projs as [|p projs IH]; intros s; simpl.
  - reflexivity.
  - rewrite (year_body_iterations_irrelevant ts orig mi th p s Hmi).
    destruct (year_body ts orig 1 0 p s); [apply IH | reflexivity].
Qed.

(** C3: for [max_iterations >= 1] and any threshold, the loop leaves
    exactly the values of one pass, they are the ones the ledger row of
    the year records, and the whole run equals the run with a single
    pass per year. *)
Theorem circularity_loop_is_single_pass (ts : list DebtTranche) (orig : dict)
    (mi : Z) (th : R) (proj : LBOProjection) (s : Sim) :
  (1 <= mi)%Z ->
  let interest := single_pass_interest ts (debt_balances s) in
  circularity_loop (Z.to_nat mi) ts proj (debt_balances s) th 0 (loop_vars s)
    = Some (interest, single_pass_fcf proj interest)
  /\ (exists s' row,
        year_body ts orig mi th proj s = Ok s'
        /\ rows s' = rows s ++ [row]
        /\ Ledger.interest_expense row = interest
        /\ Ledger.fcf row = single_pass_fcf proj interest)
  /\ (forall self : LBOModel,
        run_model_body self mi th = run_model_body self 1 0).
Proof.
  intros Hmi interest. subst interest.
  rewrite <- total_interest_of_single_pass.
  split; [apply circularity_loop_pos; exact Hmi|].
  split.
  - pose proof (year_body_pos ts orig mi th proj s Hmi) as Hy. cbv zeta in Hy.
    eexists; eexists. split; [exact Hy|]. simpl.
    split; [reflexivity|]. split; reflexivity.
  - intros self. unfold run_model_body.
    rewrite (run_years_iterations_irrelevant _ _ mi th _ _ Hmi). reflexivity.
Qed.

(** ** Termination with a result, and the failures of [run_model] *)

Lemma run_years_pos (ts : list DebtTranche) (orig : dict) (mi : Z) (th : R)
    (projs : list LBOProjection) (s : Sim) :
  (1 <= mi)%Z -> exists s', run_years ts orig mi th projs s = Ok s'.
Proof.
  intros Hmi. revert s; induction projs as [|p projs IH]; intros s; simpl.
  - eexists; reflexivity.
  - pose proof (year_body_pos ts orig mi th p s Hmi) as Hy. cbv zeta in Hy.
    rewrite Hy. apply IH.
Qed.

Lemma last_item_nonempty {A : Type} (xs : list A) :
  xs <> [] -> exists x, last_item xs = Ok x.
Proof.
  induction xs as [|x xs IH]; intros Hne; [congruence|].
  destruct xs as [|y ys].
  - exists x; reflexivity.
  - destruct IH as [z Hz]; [discriminate|]. exists z. exact Hz.
Qed.

(** C2: with no projection year the loop body never runs and
    [self.projections[-1]] raises; no [LBOResult] is returned. *)
Theorem run_model_empty_projections (self : LBOModel) (mi : Z) (th : R) :
  projections self = [] ->
  run_model mi th self = (Raise IndexError, self).
Proof.
  intros Hp. unfold run_model, run_model_body. rewrite Hp. reflexivity.
Qed.


(** With [max_iterations <= 0] the loop never binds [fcf], and the first
    year fails. *)
Lemma run_model_no_iterations (self : LBOModel) (mi : Z) (th : R) :
  (mi <= 0)%Z -> projections self <> [] ->
  run_model_body self mi th = Raise UnboundLocalError.
Proof.
  intros Hmi Hne. unfold run_model_body.
  destruct (projections self) as [|p rest]; [congruence|].
  simpl run_years. unfold year_body.
  rewrite circularity_loop_nonpos by exact Hmi. simpl.
  destruct (amortization_loop _ _ _ 0). reflexivity.
Qed.

(** ** The balance dict *)

Lemma dict_get_set_same (d : dict) (k : string) (v : R) :
  dict_get (dict_set d k v) k = v.
Proof.
  induction d as [|[k' v'] d IH]; simpl.
  - rewrite String.eqb_refl. reflexivity.
  - destruct (String.eqb k k') eqn:E; simpl; rewrite E; [reflexivity | exact IH].
Qed.

Lemma dict_get_set_other (d : dict) (k k' : string) (v : R) :
  k <> k' -> dict_get (dict_set d k v) k' = dict_get d k'.
Proof.
  intros Hne. induction d as [|[k0 v0] d IH]; simpl.
  - destruct (String.eqb_spec k' k); [congruence | reflexivity].
  - destruct (String.eqb_spec k k0) as [->|Hk]; simpl.
    + destruct (String.eqb_spec k' k0); [congruence | reflexivity].
    + destruct (String.eqb_spec k' k0); [reflexivity | exact IH].
Qed.


Lemma In_keys_dict_set (d : dict) (k x : string) (v : R) :
  In x (dict_keys (dict_set d k v)) <-> x = k \/ In x (dict_keys d).
Proof.
  induction d as [|[k' v'] d IH]; simpl.
  - split; intros [H|H]; auto; contradiction.
  - destruct (String.eqb_spec k k') as [->|Hk]; simpl.
    + split; intros H; [right; exact H|]. destruct H as [->|H]; [left; reflexivity | exact H].
    + rewrite IH. split; intros H; tauto.
Qed.

Lemma pysum_values_set (d : dict) (k : string) (v : R) :
  pysum (dict_values (dict_set d k v)) = pysum (dict_values d) - dict_get d k + v.
Proof.
  unfold dict_values. induction d as [|[k' v'] d IH]; simpl.
  - rewrite pysum_cons, pysum_nil. lra.
  - destruct (String.eqb k k') eqn:E; simpl; rewrite !pysum_cons.
    + lra.
    + rewrite IH. lra.
Qed.

Lemma dict_nonneg_get (d : dict) (k : string) : dict_nonneg d -> 0 <= dict_get d k.
Proof.
  unfold dict_nonneg. induction d as [|[k' v'] d IH]; simpl; intros Hd.
  - lra.
  - inversion Hd; subst. destruct (String.eqb k k'); [assumption | apply IH; assumption].
Qed.

Lemma dict_nonneg_set (d : dict) (k : string) (v : R) :
  dict_nonneg d -> 0 <= v -> dict_nonneg (dict_set d k v).
Proof.
  unfold dict_nonneg. induction d as [|[k' v'] d IH]; simpl; intros Hd Hv.
  - constructor; [exact Hv | constructor].
  - inversion Hd; subst.
    destruct (String.eqb k k'); simpl; constructor; auto.
Qed.

Lemma dict_nonneg_sum (d : dict) : dict_nonneg d -> 0 <= pysum (dict_values d).
Proof. apply pysum_nonneg. Qed.

(** The keys of the balance dict are the tranche names, so every lookup
    of [run_model] finds its key. *)
Lemma dict_keys_fold_set (ts : list DebtTranche) (d : dict) (x : string) :
  In x (dict_keys (fold_left (fun d t => dict_set d (name t) (amount t)) ts d))
  <-> In x (dict_keys d) \/ In x (map name ts).
Proof.
  revert d; induction ts as [|t ts IH]; intros d; simpl.
  - tauto.
  - rewrite IH, In_keys_dict_set. split; intros H; intuition auto.
Qed.

Lemma dict_keys_init (ts : list DebtTranche) (x : string) :
  In x (dict_keys (init_balances ts)) <-> In x (map name ts).
Proof.
  unfold init_balances. rewrite dict_keys_fold_set. simpl. tauto.
Qed.



Lemma dict_nonneg_fold_set (ts : list DebtTranche) (d : dict) :
  dict_nonneg d -> Forall (fun t => 0 <= amount t) ts ->
  dict_nonneg (fold_left (fun d t => dict_set d (name t) (amount t)) ts d).
Proof.
  revert d; induction ts as [|t ts IH]; intros d Hd Hts; simpl.
  - exact Hd.
  - inversion Hts; subst. apply IH; [apply dict_nonneg_set|]; assumption.
Qed.

(** ** The three steps of a year: balances stay non-negative *)

Lemma Rmin_le_r (x y : R) : Rmin x y <= y.
Proof. unfold Rmin; destruct (Rle_dec x y); lra. Qed.

Lemma Rmin_cases (x y : R) : Rmin x y = x \/ Rmin x y = y.
Proof. unfold Rmin; destruct (Rle_dec x y); auto. Qed.

Lemma amortization_loop_nonneg (ts : list DebtTranche) (orig bal : dict) (mand : R) :
  dict_nonneg bal -> dict_nonneg (fst (amortization_loop ts orig bal mand)).
Proof.
  revert bal mand; induction ts as [|t ts IH]; intros bal mand Hb; simpl.
  - exact Hb.
  - destruct (is_revolver t); [apply IH; exact Hb|].
    apply IH. apply dict_nonneg_set; [exact Hb|].
    pose proof (Rmin_le_r (annual_amortization t (dict_get orig (name t)))
                          (dict_get bal (name t))). lra.
Qed.

Lemma sweep_loop_nonneg (sorted : list DebtTranche) (bal : dict) (sweep rem : R) :
  dict_nonneg bal -> dict_nonneg (fst (sweep_loop sorted bal sweep rem)).
Proof.
  revert bal sweep rem; induction sorted as [|t ts IH]; intros bal sweep rem Hb; simpl.
  - exact Hb.
  - destruct (Rle_dec rem 0); [exact Hb|].
    apply IH. apply dict_nonneg_set; [exact Hb|].
    pose proof (Rmin_le_r rem (dict_get bal (name t))). lra.
Qed.

Lemma cash_sweep_nonneg (ts : list DebtTranche) (bal : dict) (cash : R) :
  dict_nonneg bal -> dict_nonneg (fst (cash_sweep ts bal cash)).
Proof.
  intros Hb. unfold cash_sweep.
  destruct (Rlt_dec 0 cash); [apply sweep_loop_nonneg | ]; exact Hb.
Qed.

Lemma revolver_loop_nonneg (ts : list DebtTranche) (bal : dict) (cash sweep rc : R) :
  Forall (fun t => 0 <= revolver_commitment t) ts ->
  dict_nonneg bal -> dict_nonneg (fst (revolver_loop ts bal cash sweep rc)).
Proof.
  intros Hts; revert bal rc; induction Hts as [|t ts Ht _ IH]; intros bal rc Hb; simpl.
  - exact Hb.
  - destruct (is_revolver t); [|apply IH; exact Hb].
    pose proof (dict_nonneg_get bal (name t) Hb) as Hg.
    destruct (Rlt_dec cash 0).
    + apply IH. apply dict_nonneg_set; [exact Hb|].
      destruct (Rmin_cases (- cash) (revolver_commitment t - dict_get bal (name t)))
        as [-> | ->]; lra.
    + destruct (Rlt_dec 0 cash); [|apply IH; exact Hb].
      destruct (Req_dec_T sweep 0); [|apply IH; exact Hb].
      apply IH. apply dict_nonneg_set; [exact Hb|].
      pose proof (Rmin_le_r cash (dict_get bal (name t))). lra.
Qed.

Lemma init_balances_nonneg (ts : list DebtTranche) :
  Forall (fun t => 0 <= amount t) ts -> dict_nonneg (init_balances ts).
Proof.
  intros Hts. unfold init_balances. apply dict_nonneg_fold_set; [constructor | exact Hts].
Qed.

(** The debt total moves by what each step reports. *)

Lemma amortization_loop_sum (ts : list DebtTranche) (orig bal : dict) (mand : R) :
  pysum (dict_values (fst (amortization_loop ts orig bal mand)))
  + snd (amortization_loop ts orig bal mand)
  = pysum (dict_values bal) + mand.
Proof.
  revert bal mand; induction ts as [|t ts IH]; intros bal mand; simpl.
  - reflexivity.
  - destruct (is_revolver t); [apply IH|].
    rewrite IH, pysum_values_set. lra.
Qed.

Lemma sweep_loop_sum (sorted : list DebtTranche) (bal : dict) (sweep rem : R) :
  pysum (dict_values (fst (sweep_loop sorted bal sweep rem)))
  + snd (sweep_loop sorted bal sweep rem)
  = pysum (dict_values bal) + sweep.
Proof.
  revert bal sweep rem; induction sorted as [|t ts IH]; intros bal sweep rem; simpl.
  - reflexivity.
  - destruct (Rle_dec rem 0); [reflexivity|].
    rewrite IH, pysum_values_set. lra.
Qed.

Lemma cash_sweep_sum (ts : list DebtTranche) (bal : dict) (cash : R) :
  pysum (dict_values (fst (cash_sweep ts bal cash))) + snd (cash_sweep ts bal cash)
  = pysum (dict_values bal).
Proof.
  unfold cash_sweep. destruct (Rlt_dec 0 cash); simpl.
  - rewrite sweep_loop_sum. lra.
  - lra.
Qed.

Lemma revolver_loop_no_revolver (ts : list DebtTranche) (bal : dict)
    (cash sweep rc : R) :
  filter is_revolver ts = [] -> revolver_loop ts bal cash sweep rc = (bal, rc).
Proof.
  induction ts as [|t ts IH]; simpl; intros Hf; [reflexivity|].
  destruct (is_revolver t); [discriminate | apply IH; exact Hf].
Qed.

Lemma revolver_loop_sum (ts : list DebtTranche) (bal : dict) (cash sweep : R) :
  (List.length (filter is_revolver ts) <= 1)%nat ->
  pysum (dict_values (fst (revolver_loop ts bal cash sweep 0)))
  = pysum (dict_values bal) + snd (revolver_loop ts bal cash sweep 0).
Proof.
  induction ts as [|t ts IH]; simpl; intros Hn.
  - lra.
  - destruct (is_revolver t) eqn:Et; [|apply IH; exact Hn].
    simpl in Hn.
    assert (Hnone : filter is_revolver ts = []).
    { destruct (filter is_revolver ts); [reflexivity | simpl in Hn; lia]. }
    destruct (Rlt_dec cash 0).
    + rewrite revolver_loop_no_revolver by exact Hnone. simpl.
      rewrite pysum_values_set. lra.
    + destruct (Rlt_dec 0 cash); [|apply IH; rewrite Hnone; simpl; lia].
      destruct (Req_dec_T sweep 0); [|apply IH; rewrite Hnone; simpl; lia].
      rewrite revolver_loop_no_revolver by exact Hnone. simpl.
      rewrite pysum_values_set. lra.
Qed.

(** ** Whole years and whole runs *)

Lemma year_body_inv (ts : list DebtTranche) (orig : dict) (mi : Z) (th : R)
    (proj : LBOProjection) (s s' : Sim) :
  year_body ts orig mi th proj s = Ok s' ->
  exists fcf : R,
    let a := amortization_loop ts orig (debt_balances s) 0 in
    let c := cash_sweep ts (fst a) (fcf - snd a) in
    let r := revolver_loop ts (fst c) (fcf - snd a) (snd c) 0 in
    debt_balances s' = fst r
    /\ total_paydown s' = total_paydown s + (snd a + snd c - snd r).
Proof.
  unfold year_body.
  destruct (circularity_loop _ ts proj (debt_balances s) th 0 (loop_vars s))
    as [[ti fcf]|].
  - destruct (amortization_loop ts orig (debt_balances s) 0) as [bal1 mand] eqn:Ea.
    destruct (cash_sweep ts bal1 (fcf - mand)) as [bal2 sweep] eqn:Ec.
    destruct (revolver_loop ts bal2 (fcf - mand) sweep 0) as [bal3 rc] eqn:Er.
    intros H; inversion H; subst; clear H. exists fcf; simpl.
    rewrite Ec; simpl. rewrite Er; simpl. split; reflexivity.
  - destruct (amortization_loop ts orig (debt_balances s) 0); discriminate.
Qed.

Lemma run_years_app (ts : list DebtTranche) (orig : dict) (mi : Z) (th : R)
    (l1 l2 : list LBOProjection) (s : Sim) :
  run_years ts orig mi th (l1 ++ l2) s
  = match run_years ts orig mi th l1 s with
    | Ok s' => run_years ts orig mi th l2 s'
    | Raise e => Raise e
    end.
Proof.
  revert s; induction l1 as [|p l1 IH]; intros s; simpl.
  - reflexivity.
  - destruct (year_body ts orig mi th p s); [apply IH | reflexivity].
Qed.

Lemma valid_tranches_amount (ts : list DebtTranche) :
  valid_tranches ts -> Forall (fun t => 0 <= amount t) ts.
Proof. apply Forall_impl; tauto. Qed.

Lemma valid_tranches_commitment (ts : list DebtTranche) :
  valid_tranches ts -> Forall (fun t => 0 <= revolver_commitment t) ts.
Proof. apply Forall_impl; tauto. Qed.

Lemma year_steps_nonneg (ts : list DebtTranche) (orig bal : dict)
    (cash sweep rc : R) :
  valid_tranches ts -> dict_nonneg bal ->
  let a := fst (amortization_loop ts orig bal 0) in
  let c := fst (cash_sweep ts a cash) in
  dict_nonneg a /\ dict_nonneg c
  /\ dict_nonneg (fst (revolver_loop ts c cash sweep rc)).
Proof.
  intros Hv Hb a c.
  assert (Ha : dict_nonneg a) by (apply amortization_loop_nonneg; exact Hb).
  assert (Hc : dict_nonneg c) by (apply cash_sweep_nonneg; exact Ha).
  repeat split; try assumption.
  apply revolver_loop_nonneg; [apply valid_tranches_commitment; exact Hv | exact Hc].
Qed.

Lemma year_body_nonneg (ts : list DebtTranche) (orig : dict) (mi : Z) (th : R)
    (proj : LBOProjection) (s s' : Sim) :
  valid_tranches ts -> dict_nonneg (debt_balances s) ->
  year_body ts orig mi th proj s = Ok s' -> dict_nonneg (debt_balances s').
Proof.
  intros Hv Hb Hy. destruct (year_body_inv _ _ _ _ _ _ _ Hy) as [fcf [Hbal _]].
  rewrite Hbal.
  apply (year_steps_nonneg ts orig (debt_balances s) _ _ 0 Hv Hb).
Qed.

Lemma run_years_nonneg (ts : list DebtTranche) (orig : dict) (mi : Z) (th : R)
    (projs : list LBOProjection) (s s' : Sim) :
  valid_tranches ts -> dict_nonneg (debt_balances s) ->
  run_years ts orig mi th projs s = Ok s' -> dict_nonneg (debt_balances s').
Proof.
  intros Hv. revert s; induction projs as [|p projs IH]; intros s Hb; simpl.
  - intros H; inversion H; subst; exact Hb.
  - destruct (year_body ts orig mi th p s) as [s1|e] eqn:Ey; [|discriminate].
    apply IH. eapply year_body_nonneg; eauto.
Qed.

Lemma run_model_body_pos (self : LBOModel) (mi : Z) (th : R) :
  (1 <= mi)%Z -> projections self <> [] ->
  exists s final,
    run_years (debt_tranches self) (init_balances (debt_tranches self)) mi th
      (projections self) (init_sim (debt_tranches self)) = Ok s
    /\ last_item (projections self) = Ok final
    /\ exists r, run_model_body self mi th = Ok r
         /\ exit_net_debt r = pysum (dict_values (debt_balances s))
         /\ total_debt_paydown r = total_paydown s
         /\ exit_enterprise_value r = ebitda final * exit_multiple self
         /\ exit_equity r = exit_enterprise_value r - exit_net_debt r
         /\ entry_equity r = initial_equity self
         /\ moic r = (if Rlt_dec 0 (initial_equity self)
                      then exit_equity r / initial_equity self else 0)
         /\ irr r = (if Rlt_dec 0 (moic r) then
                       if (0 <? List.length (projections self))%nat
                       then Rpower (moic r) (1 / INR (List.length (projections self))) - 1
                       else 0
                     else 0).
Proof.
  intros Hmi Hne.
  destruct (run_years_pos (debt_tranches self) (init_balances (debt_tranches self))
              mi th (projections self) (init_sim (debt_tranches self)) Hmi) as [s Hs].
  destruct (last_item_nonempty (projections self) Hne) as [final Hf].
  exists s, final. split; [exact Hs|]. split; [exact Hf|].
  unfold run_model_body. rewrite Hs, Hf.
  eexists; split; [reflexivity|]. simpl. repeat split; reflexivity.
Qed.

(** C6: with non-negative amounts and commitments, the balances are
    non-negative at the start of every year, after each of its three
    steps (whatever cash the step is given), and at exit.  By
    [run_years_app], the state after the first [k] years is the state
    with which the next year starts. *)
Theorem balances_never_negative (self : LBOModel) (mi : Z) (th : R) :
  valid_tranches (debt_tranches self) ->
  let ts := debt_tranches self in
  let orig := init_balances ts in
  (forall (k : nat) (s : Sim),
      run_years ts orig mi th (firstn k (projections self)) (init_sim ts) = Ok s ->
      dict_nonneg (debt_balances s)
      /\ forall cash sweep rc : R,
           let a := fst (amortization_loop ts orig (debt_balances s) 0) in
           let c := fst (cash_sweep ts a cash) in
           dict_nonneg a /\ dict_nonneg c
           /\ dict_nonneg (fst (revolver_loop ts c cash sweep rc)))
  /\ (forall r, run_model_body self mi th = Ok r -> 0 <= exit_net_debt r)
  /\ ((1 <= mi)%Z -> projections self <> [] ->
      exists r, run_model_body self mi th = Ok r /\ 0 <= exit_net_debt r).
Proof.
  intros Hv ts orig.
  assert (Hinit : dict_nonneg (debt_balances (init_sim ts))).
  { simpl. apply init_balances_nonneg, valid_tranches_amount, Hv. }
  assert (Hexit : forall r, run_model_body self mi th = Ok r -> 0 <= exit_net_debt r).
  { intros r. unfold run_model_body. fold ts. fold orig.
    destruct (run_years ts orig mi th (projections self) (init_sim ts)) as [s|e] eqn:Hs;
      [|discriminate].
    destruct (last_item (projections self)); [|discriminate].
    intros H; inversion H; subst; clear H. simpl.
    apply dict_nonneg_sum. eapply run_years_nonneg; eauto. }
  split; [|split].
  - intros k s Hs.
    assert (Hb : dict_nonneg (debt_balances s)) by (eapply run_years_nonneg; eauto).
    split; [exact Hb|]. intros cash sweep rc.
    apply year_steps_nonneg; assumption.
  - exact Hexit.
  - intros Hmi Hne.
    destruct (run_model_body_pos self mi th Hmi Hne) as [s [final [_ [_ [r [Hr _]]]]]].
    exists r. split; [exact Hr | apply Hexit; exact Hr].
Qed.

Lemma year_body_telescopes (ts : list DebtTranche) (orig : dict) (mi : Z) (th : R)
    (proj : LBOProjection) (s s' : Sim) :
  (List.length (filter is_revolver ts) <= 1)%nat ->
  year_body ts orig mi th proj s = Ok s' ->
  total_paydown s' + pysum (dict_values (debt_balances s'))
  = total_paydown s + pysum (dict_values (debt_balances s)).
Proof.
  intros Hrev Hy. destruct (year_body_inv _ _ _ _ _ _ _ Hy) as [fcf [Hbal Htp]].
  cbv zeta in Hbal, Htp. rewrite Hbal, Htp.
  rewrite (revolver_loop_sum ts _ _ _ Hrev).
  pose proof (cash_sweep_sum ts (fst (amortization_loop ts orig (debt_balances s) 0))
                (fcf - snd (amortization_loop ts orig (debt_balances s) 0))) as Hc.
  pose proof (amortization_loop_sum ts orig (debt_balances s) 0) as Ha.
  lra.
Qed.

Lemma run_years_telescopes (ts : list DebtTranche) (orig : dict) (mi : Z) (th : R)
    (projs : list LBOProjection) (s s' : Sim) :
  (List.length (filter is_revolver ts) <= 1)%nat ->
  run_years ts orig mi th projs s = Ok s' ->
  total_paydown s' + pysum (dict_values (debt_balances s'))
  = total_paydown s + pysum (dict_values (debt_balances s)).
Proof.
  intros Hrev. revert s; induction projs as [|p projs IH]; intros s; simpl.
  - intros H; inversion H; subst; reflexivity.
  - destruct (year_body ts orig mi th p s) as [s1|e] eqn:Ey; [|discriminate].
    intros Hrun. rewrite (IH s1 Hrun). eapply year_body_telescopes; eauto.
Qed.


(** ** The cash sweep *)

Lemma insert_by_priority_perm (t : DebtTranche) (l : list DebtTranche) :
  Permutation (insert_by_priority t l) (t :: l).
Proof.
  induction l as [|u r IH]; simpl.
  - apply Permutation_refl.
  - destruct (cash_sweep_priority t <=? cash_sweep_priority u)%Z.
    + apply Permutation_refl.
    + apply Permutation_trans with (u :: t :: r).
      * apply perm_skip. exact IH.
      * apply perm_swap.
Qed.

Lemma sorted_by_priority_perm (l : list DebtTranche) :
  Permutation (sorted_by_priority l) l.
Proof.
  induction l as [|t l IH]; simpl.
  - apply perm_nil.
  - apply Permutation_trans with (t :: sorted_by_priority l).
    + apply insert_by_priority_perm.
    + apply perm_skip. exact IH.
Qed.

Lemma insert_by_priority_sorted (t : DebtTranche) (l : list DebtTranche) :
  StronglySorted priority_le l -> StronglySorted priority_le (insert_by_priority t l).
Proof.
  induction 1 as [|u r Hr IH Hall]; simpl.
  - constructor; constructor.
  - destruct (Z.leb_spec (cash_sweep_priority t) (cash_sweep_priority u)) as [Hle|Hgt].
    + constructor; [constructor; assumption|].
      constructor; [exact Hle|].
      eapply Forall_impl; [|exact Hall].
      intros w Hw. unfold priority_le in *. lia.
    + constructor; [exact IH|].
      apply (Permutation_Forall (Permutation_sym (insert_by_priority_perm t r))).
      constructor; [unfold priority_le; lia | exact Hall].
Qed.

Lemma sorted_by_priority_sorted (l : list DebtTranche) :
  StronglySorted priority_le (sorted_by_priority l).
Proof.
  induction l as [|t l IH]; simpl.
  - constructor.
  - apply insert_by_priority_sorted. exact IH.
Qed.

(** In a sorted list the tranche of strictly lower priority number comes
    first. *)
Lemma sorted_lower_priority_first (l : list DebtTranche) (t u : DebtTranche) :
  StronglySorted priority_le l -> In t l -> In u l ->
  (cash_sweep_priority t < cash_sweep_priority u)%Z ->
  exists l1 l2, l = l1 ++ t :: l2 /\ In u l2.
Proof.
  induction 1 as [|x r Hr IH Hall]; intros Ht Hu Hlt; [contradiction|].
  destruct Ht as [->|Ht].
  - destruct Hu as [->|Hu]; [lia|].
    exists [], r. split; [reflexivity | exact Hu].
  - destruct Hu as [->|Hu].
    + rewrite Forall_forall in Hall. specialize (Hall t Ht).
      unfold priority_le in Hall. lia.
    + destruct (IH Ht Hu Hlt) as [l1 [l2 [-> Hin]]].
      exists (x :: l1), l2. split; [reflexivity | exact Hin].
Qed.

Lemma sweep_loop_no_cash (l : list DebtTranche) (bal : dict) (sweep rem : R) :
  rem <= 0 -> sweep_loop l bal sweep rem = (bal, sweep).
Proof.
  intros Hrem. destruct l as [|t l]; simpl; [reflexivity|].
  destruct (Rle_dec rem 0); [reflexivity | contradiction].
Qed.

Lemma sweep_loop_untouched (l : list DebtTranche) (bal : dict) (sweep rem : R)
    (k : string) :
  ~ In k (map name l) ->
  dict_get (fst (sweep_loop l bal sweep rem)) k = dict_get bal k.
Proof.
  revert bal sweep rem; induction l as [|t l IH]; intros bal sweep rem Hk; simpl.
  - reflexivity.
  - destruct (Rle_dec rem 0); [reflexivity|].
    rewrite IH.
    + apply dict_get_set_other. intros Heq. apply Hk. left. exact Heq.
    + intros Hin. apply Hk. right. exact Hin.
Qed.

Lemma sweep_loop_head_retired (t : DebtTranche) (l : list DebtTranche) (bal : dict)
    (sweep rem : R) (u : DebtTranche) :
  NoDup (map name (t :: l)) -> In u l ->
  dict_get (fst (sweep_loop (t :: l) bal sweep rem)) (name u) <> dict_get bal (name u) ->
  dict_get (fst (sweep_loop (t :: l) bal sweep rem)) (name t) = 0.
Proof.
  intros Hnd Hu. inversion Hnd as [|? ? Hnotin Hnd']; subst.
  assert (Hne : name t <> name u).
  { intros Heq. apply Hnotin. rewrite Heq. apply in_map. exact Hu. }
  simpl. destruct (Rle_dec rem 0) as [Hle|Hgt]; [intros H; exfalso; apply H; reflexivity|].
  destruct (Rle_dec rem (dict_get bal (name t))) as [Hsmall|Hbig].
  - rewrite (Rmin_left _ _ Hsmall).
    rewrite sweep_loop_no_cash by lra. simpl.
    rewrite dict_get_set_other by exact Hne.
    intros H; exfalso; apply H; reflexivity.
  - intros _. rewrite Rmin_right by lra.
    rewrite sweep_loop_untouched by exact Hnotin.
    rewrite dict_get_set_same. lra.
Qed.

Lemma sweep_loop_earlier_retired (l1 : list DebtTranche) (t : DebtTranche)
    (l2 : list DebtTranche) (bal : dict) (sweep rem : R) (u : DebtTranche) :
  NoDup (map name (l1 ++ t :: l2)) -> In u l2 ->
  dict_get (fst (sweep_loop (l1 ++ t :: l2) bal sweep rem)) (name u)
    <> dict_get bal (name u) ->
  dict_get (fst (sweep_loop (l1 ++ t :: l2) bal sweep rem)) (name t) = 0.
Proof.
  revert bal sweep rem; induction l1 as [|x l1 IH]; intros bal sweep rem Hnd Hu.
  - apply sweep_loop_head_retired; assumption.
  - simpl in Hnd. inversion Hnd as [|? ? Hnotin Hnd']; subst.
    assert (Hne : name x <> name u).
    { intros Heq. apply Hnotin. rewrite Heq. apply in_map.
      apply in_or_app. right. right. exact Hu. }
    simpl. destruct (Rle_dec rem 0); [intros H; exfalso; apply H; reflexivity|].
    intros Hchanged. apply IH; [exact Hnd' | exact Hu |].
    rewrite dict_get_set_other by exact Hne. exact Hchanged.
Qed.

Lemma In_non_revolvers (ts : list DebtTranche) (t : DebtTranche) :
  In t (non_revolvers ts) <-> In t ts /\ is_revolver t = false.
Proof.
  unfold non_revolvers. rewrite filter_In.
  destruct (is_revolver t); simpl; intuition congruence.
Qed.

(** The walk over a list continues from the state left by a prefix: the
    cash remaining after the prefix is the cash it started with minus
    what the prefix paid. *)
Lemma sweep_loop_app (l1 l2 : list DebtTranche) (bal : dict) (sweep rem : R) :
  sweep_loop (l1 ++ l2) bal sweep rem
  = sweep_loop l2 (fst (sweep_loop l1 bal sweep rem))
      (snd (sweep_loop l1 bal sweep rem))
      (rem - (snd (sweep_loop l1 bal sweep rem) - sweep)).
Proof.
  revert bal sweep rem; induction l1 as [|t l1 IH]; intros bal sweep rem; simpl.
  - f_equal. lra.
  - destruct (Rle_dec rem 0) as [Hle|Hgt]; simpl.
    + rewrite !sweep_loop_no_cash by lra. reflexivity.
    + rewrite IH. f_equal. lra.
Qed.

Lemma sweep_loop_zero_stays (l : list DebtTranche) (bal : dict) (sweep rem : R)
    (k : string) :
  dict_get bal k = 0 -> dict_get (fst (sweep_loop l bal sweep rem)) k = 0.
Proof.
  revert bal sweep rem; induction l as [|t l IH]; intros bal sweep rem Hk; simpl.
  - exact Hk.
  - destruct (Rle_dec rem 0) as [Hle|Hgt]; [exact Hk|].
    apply IH. destruct (String.eqb_spec (name t) k) as [Heq|Hne].
    + rewrite <- Heq. rewrite dict_get_set_same. rewrite <- Heq in Hk. rewrite Hk.
      rewrite Rmin_right by lra. lra.
    + rewrite dict_get_set_other by exact Hne. exact Hk.
Qed.

(** If cash is left after the walk over [l], every tranche of [l] has
    been retired. *)
Lemma sweep_loop_cash_left (l : list DebtTranche) (bal : dict) (sweep rem : R)
    (t : DebtTranche) :
  0 < rem - (snd (sweep_loop l bal sweep rem) - sweep) -> In t l ->
  dict_get (fst (sweep_loop l bal sweep rem)) (name t) = 0.
Proof.
  revert bal sweep rem; induction l as [|x l IH]; intros bal sweep rem Hleft Ht;
    [contradiction|].
  simpl in *. destruct (Rle_dec rem 0) as [Hle|Hgt]; [simpl in Hleft; lra|].
  set (p := Rmin rem (dict_get bal (name x))) in *.
  assert (Hrem : 0 < rem - p).
  { destruct (Rle_dec (rem - p) 0) as [Hno|Hyes]; [|lra].
    rewrite sweep_loop_no_cash in Hleft by exact Hno. simpl in Hleft. lra. }
  destruct Ht as [->|Ht].
  - apply sweep_loop_zero_stays. rewrite dict_get_set_same.
    destruct (Rmin_cases rem (dict_get bal (name t))) as [Hp|Hp]; fold p in Hp; lra.
  - apply IH; [lra | exact Ht].
Qed.

Lemma sorted_split_lower (l1 : list DebtTranche) (u : DebtTranche)
    (l2 : list DebtTranche) (t : DebtTranche) :
  StronglySorted priority_le (l1 ++ u :: l2) -> In t (l1 ++ u :: l2) ->
  (cash_sweep_priority t < cash_sweep_priority u)%Z -> In t l1.
Proof.
  induction l1 as [|x l1 IH]; simpl; intros Hs Ht Hlt.
  - inversion Hs as [|? ? _ Hall]; subst. destruct Ht as [->|Ht]; [lia|].
    rewrite Forall_forall in Hall. specialize (Hall t Ht).
    unfold priority_le in Hall. lia.
  - inversion Hs; subst. destruct Ht as [->|Ht]; [left; reflexivity|].
    right. apply IH; assumption.
Qed.

Lemma cash_sweep_retires_lower_priority (ts : list DebtTranche) (bal : dict)
    (cash : R) (t u : DebtTranche) :
  NoDup (map name (non_revolvers ts)) ->
  In t ts -> In u ts -> is_revolver t = false -> is_revolver u = false ->
  (cash_sweep_priority t < cash_sweep_priority u)%Z ->
  dict_get (fst (cash_sweep ts bal cash)) (name u) <> dict_get bal (name u) ->
  dict_get (fst (cash_sweep ts bal cash)) (name t) = 0.
Proof.
  intros Hnd Ht Hu Hrt Hru Hlt. unfold cash_sweep.
  destruct (Rlt_dec 0 cash); [|intros H; exfalso; apply H; reflexivity].
  pose proof (sorted_by_priority_perm (non_revolvers ts)) as Hperm.
  assert (Hts : In t (sorted_by_priority (non_revolvers ts))).
  { apply (Permutation_in _ (Permutation_sym Hperm)). apply In_non_revolvers. auto. }
  assert (Hus : In u (sorted_by_priority (non_revolvers ts))).
  { apply (Permutation_in _ (Permutation_sym Hperm)). apply In_non_revolvers. auto. }
  destruct (sorted_lower_priority_first _ t u
              (sorted_by_priority_sorted (non_revolvers ts)) Hts Hus Hlt)
    as [l1 [l2 [Heq Hin]]].
  assert (Hnd' : NoDup (map name (sorted_by_priority (non_revolvers ts)))).
  { apply (Permutation_NoDup (l := map name (non_revolvers ts))); [|exact Hnd].
    apply Permutation_map, Permutation_sym, Hperm. }
  rewrite Heq in *. apply sweep_loop_earlier_retired; assumption.
Qed.

(** C7: the sweep walks the non-revolver tranches in ascending priority
    order; when the walk reaches a tranche with cash left, every tranche
    of strictly lower priority number has balance zero; with distinct
    names, a tranche whose balance the sweep changed has all tranches of
    strictly lower priority number at zero after the sweep; and in the
    Senior / Mezz structure a sweep that cannot retire Senior leaves Mezz
    untouched.  The sweep of a year is [cash_sweep] at the balances after
    amortization, so [bal] and [cash] range over every year of every run;
    by [sweep_loop_app], the walk reaches [u] in the state the walk over
    the tranches before [u] leaves. *)
Theorem sweep_respects_priority (ts : list DebtTranche) (bal : dict) (cash : R) :
  let order := sorted_by_priority (non_revolvers ts) in
  let bal' := fst (cash_sweep ts bal cash) in
  StronglySorted priority_le order
  /\ Permutation order (non_revolvers ts)
  /\ (0 < cash -> cash_sweep ts bal cash = sweep_loop order bal 0 cash)
  /\ (forall (l1 : list DebtTranche) (u : DebtTranche) (l2 : list DebtTranche)
             (t : DebtTranche),
        order = l1 ++ u :: l2 ->
        let reached := sweep_loop l1 bal 0 cash in
        0 < cash - snd reached ->
        In t ts -> is_revolver t = false ->
        (cash_sweep_priority t < cash_sweep_priority u)%Z ->
        dict_get (fst reached) (name t) = 0)
  /\ (NoDup (map name (non_revolvers ts)) ->
      forall t u : DebtTranche,
        In t ts -> In u ts -> is_revolver t = false -> is_revolver u = false ->
        (cash_sweep_priority t < cash_sweep_priority u)%Z ->
        dict_get bal' (name u) <> dict_get bal (name u) ->
        dict_get bal' (name t) = 0)
  /\ (forall (b : dict) (c : R),
        c < dict_get b (name senior) ->
        dict_get (fst (cash_sweep [senior; mezz] b c)) (name mezz)
        = dict_get b (name mezz)).
Proof.
  intros order bal'. subst order bal'.
  split; [apply sorted_by_priority_sorted|].
  split; [apply sorted_by_priority_perm|].
  split.
  { intros Hc. unfold cash_sweep. destruct (Rlt_dec 0 cash); [reflexivity | contradiction]. }
  split.
  { intros l1 u l2 t Horder reached Hleft Ht Hrt Hlt. subst reached.
    apply sweep_loop_cash_left; [lra|].
    apply (sorted_split_lower l1 u l2 t); [| |exact Hlt].
    - rewrite <- Horder. apply sorted_by_priority_sorted.
    - rewrite <- Horder.
      apply (Permutation_in _ (Permutation_sym (sorted_by_priority_perm _))).
      apply In_non_revolvers. auto. }
  split.
  { intros Hnd t u. apply cash_sweep_retires_lower_priority. exact Hnd. }
  intros b c Hc. simpl in Hc. unfold cash_sweep.
  destruct (Rlt_dec 0 c) as [Hpos|Hneg]; [|reflexivity].
  simpl. destruct (Rle_dec c 0); [reflexivity|].
  rewrite (Rmin_left c (dict_get b "Senior")) by lra.
  destruct (Rle_dec (c - c) 0) as [_|Hn]; [|exfalso; apply Hn; lra].
  simpl. apply dict_get_set_other. discriminate.
Qed.

(** ** Returns and the exit multiple *)




(** ** The entry-multiple solver *)

Lemma with_amount_same (t : DebtTranche) : with_amount t (amount t) = t.
Proof. destruct t; reflexivity. Qed.

(** [amount * scale / (entry_multiple / original_multiple)] with
    [scale = mid / original_multiple] and [entry_multiple = mid]: the two
    factors cancel. *)
Lemma rescaled_amount (a mid original_multiple : R) :
  mid / original_multiple <> 0 ->
  a * (mid / original_multiple) / (mid / original_multiple) = a.
Proof.
  intros Hq. set (q := mid / original_multiple) in *. clearbody q.
  field. exact Hq.
Qed.


Lemma rescale_loop_outcome (ts : list DebtTranche) (mid original_multiple : R) :
  original_multiple <> 0 -> mid / original_multiple <> 0 ->
  rescale_loop ts (mid / original_multiple) mid original_multiple = (Ok tt, ts).
Proof.
  intros Ho Hq. induction ts as [|t ts IH]; simpl; [reflexivity|].
  unfold pydiv. destruct (Req_dec_T original_multiple 0); [contradiction|].
  destruct (Req_dec_T (mid / original_multiple) 0); [contradiction|].
  rewrite IH. rewrite rescaled_amount by assumption.
  rewrite with_amount_same. reflexivity.
Qed.


Lemma prepare_trial_ok (mid original_multiple : R) (self : LBOModel) :
  original_multiple <> 0 -> mid / original_multiple <> 0 ->
  prepare_trial mid original_multiple self
  = (Ok tt, snd (set_entry_multiple mid self)).
Proof.
  intros Ho Hq. unfold prepare_trial, bind, lift. simpl.
  unfold pydiv. destruct (Req_dec_T original_multiple 0); [contradiction|].
  unfold rescale_debt. simpl.
  rewrite rescale_loop_outcome by assumption. reflexivity.
Qed.

Lemma search_S (k : nat) (original_multiple target_irr tolerance low high : R) :
  search (S k) original_multiple target_irr tolerance low high
  = (let mid := (low + high) / 2 in
     prepare_trial mid original_multiple ;;;
     result <- run_model 10 (1 / 100) ;;
     if Rlt_dec (Rabs (irr result - target_irr)) tolerance then
       set_entry_multiple original_multiple ;;; ret (Some mid)
     else if Rlt_dec target_irr (irr result) then
       search k original_multiple target_irr tolerance mid high
     else
       search k original_multiple target_irr tolerance low mid).
Proof. reflexivity. Qed.



(** ** Runs of the example models *)

Lemma one_year_schedule :
  run_years [term_loan] (init_balances [term_loan]) 10 (1 / 100) [flat_year]
    (init_sim [term_loan])
  = Ok {| debt_balances := [("Term Loan"%string, 340)];
          loop_vars := Some (40, 60);
          rows := [one_year_row];
          total_paydown := 60 |}.
Proof.
  simpl run_years. rewrite year_body_pos by lia. cbv zeta. unfold one_year_row. reval.
Qed.



(** C1: the first trial of the solver on [one_year_deal] (bounds 5 and
    15, so the midpoint is 10 against an original multiple of 8) calls
    [run_model] with the tranche amount 400 it started with, not with
    400 * 10 / 8 = 500. *)
Theorem trial_does_not_rescale_debt :
  exists trial,
    prepare_trial ((5 + 15) / 2) (entry_multiple one_year_deal) one_year_deal
      = (Ok tt, trial)
    /\ entry_multiple trial = 10
    /\ map amount (debt_tranches trial) = [400]
    /\ map (fun t => amount t * (10 / entry_multiple one_year_deal))
         (debt_tranches one_year_deal) = [500]
    /\ map amount (debt_tranches trial)
       <> map (fun t => amount t * (10 / entry_multiple one_year_deal))
            (debt_tranches one_year_deal).
Proof.
  eexists. split.
  - apply prepare_trial_ok; simpl; lra.
  - simpl. repeat split; try (f_equal; lra).
    intros H. inversion H. lra.
Qed.


Lemma overlevered_run (entry exit : R) :
  entry <= 5 ->
  exists r, run_model_body (overlevered_deal_at entry exit) 10 (1 / 100) = Ok r
    /\ moic r = 0 /\ irr r = 0.
Proof.
  intros He.
  destruct (run_model_body_pos (overlevered_deal_at entry exit) 10 (1 / 100))
    as [s [final [_ [_ [r [Hr [_ [_ [_ [_ [_ [Hm Hi]]]]]]]]]]]];
    [lia | discriminate |].
  assert (Heq : initial_equity (overlevered_deal_at entry exit) = 100 * entry - 500).
  { unfold initial_equity, financing_fees, transaction_fees, total_initial_debt,
      purchase_price, pysum. simpl. lra. }
  rewrite Heq in Hm.
  destruct (Rlt_dec 0 (100 * entry - 500)) as [Hp|_]; [exfalso; lra|].
  rewrite Hm in Hi.
  destruct (Rlt_dec 0 0) as [Hp|_]; [exfalso; lra|].
  exists r. auto.
Qed.

Lemma overlevered_search (n : nat) (low high entry : R) :
  1 <= low -> low <= high -> high <= 5 ->
  search n 4 (1 / 5) (1 / 1000) low high (overlevered_deal_at entry 10)
  = (Ok None, overlevered_deal).
Proof.
  revert low high entry; induction n as [|n IH]; intros low high entry Hl Hlh Hh.
  - reflexivity.
  - rewrite search_S. cbv zeta. unfold bind at 1.
    rewrite prepare_trial_ok by lra.
    change (snd (set_entry_multiple ((low + high) / 2) (overlevered_deal_at entry 10)))
      with (overlevered_deal_at ((low + high) / 2) 10).
    unfold bind at 1, run_model at 1.
    destruct (overlevered_run ((low + high) / 2) 10) as [r [Hr [_ Hi]]]; [lra|].
    rewrite Hr, Hi.
    destruct (Rlt_dec (Rabs (0 - 1 / 5)) (1 / 1000)) as [Hlt|_].
    { exfalso. unfold Rabs in Hlt. destruct (Rcase_abs _); lra. }
    destruct (Rlt_dec (1 / 5) 0) as [Hlt|_]; [exfalso; lra|].
    apply IH; lra.
Qed.

Lemma solve_overlevered :
  solve_for_entry_multiple (1 / 5) 1 5 (1 / 1000) overlevered_deal
  = (Ok None, overlevered_deal).
Proof.
  unfold solve_for_entry_multiple, bind, get_self.
  apply (overlevered_search 50 1 5 4); lra.
Qed.


Lemma one_year_run_underwater (exit : R) :
  100 * exit <= 340 ->
  exists r, run_model_body (one_year_deal_at 8 exit) 10 (1 / 100) = Ok r
    /\ moic r = (100 * exit - 340) / 400 /\ irr r = 0.
Proof.
  intros Hx.
  destruct (run_model_body_pos (one_year_deal_at 8 exit) 10 (1 / 100))
    as [s [final [Hs [Hf [r [Hr [Hd [_ [Hev [Hee [_ [Hm Hi]]]]]]]]]]]];
    [lia | discriminate |].
  change (debt_tranches (one_year_deal_at 8 exit)) with [term_loan] in Hs.
  change (projections (one_year_deal_at 8 exit)) with [flat_year] in Hs.
  rewrite one_year_schedule in Hs. inversion Hs; subst s; clear Hs.
  simpl in Hf. inversion Hf; subst final; clear Hf.
  simpl in Hd, Hev.
  replace (pysum [340]) with 340 in Hd by (unfold pysum; simpl; lra).
  assert (Heq : initial_equity (one_year_deal_at 8 exit) = 400).
  { unfold initial_equity, financing_fees, transaction_fees, total_initial_debt,
      purchase_price, pysum. simpl. lra. }
  rewrite Heq in Hm.
  destruct (Rlt_dec 0 400) as [_|Hn]; [|exfalso; lra].
  rewrite Hee, Hev, Hd in Hm.
  assert (Hneg : moic r <= 0).
  { rewrite Hm. unfold Rdiv.
    replace 0 with (0 * / 400) by lra.
    apply Rmult_le_compat_r; lra. }
  destruct (Rlt_dec 0 (moic r)) as [Hp|_]; [exfalso; lra|].
  exists r. auto.
Qed.

(** With a positive equity cheque and positive EBITDA, a deal that is
    under water at both exit multiples has a larger MOIC but the same
    IRR of 0. *)
Lemma exit_multiple_irr_not_strict :
  exists r1 r2,
    run_model_body (with_exit_multiple one_year_deal 1) 10 (1 / 100) = Ok r1
    /\ run_model_body (with_exit_multiple one_year_deal 2) 10 (1 / 100) = Ok r2
    /\ moic r1 < moic r2 /\ irr r1 = 0 /\ irr r2 = 0.
Proof.
  destruct (one_year_run_underwater 1) as [r1 [H1 [Hm1 Hi1]]]; [lra|].
  destruct (one_year_run_underwater 2) as [r2 [H2 [Hm2 Hi2]]]; [lra|].
  exists r1, r2. repeat split; try assumption. rewrite Hm1, Hm2. lra.
Qed.








Lemma twin_name_interest :
  total_interest_of [term_loan; with_amount term_loan 100]
    [("Term Loan"%string, 100)] = 20.
Proof. reval. Qed.

Lemma flat_year_fcf : _calculate_free_cash_flow flat_year 20 = 80.
Proof. reval. Qed.

Lemma twin_name_amortization :
  amortization_loop [term_loan; with_amount term_loan 100]
    [("Term Loan"%string, 100)] [("Term Loan"%string, 100)] 0
  = ([("Term Loan"%string, 100)], 0).
Proof. reval. Qed.

Lemma twin_name_sweep :
  cash_sweep [term_loan; with_amount term_loan 100] [("Term Loan"%string, 100)] (80 - 0)
  = ([("Term Loan"%string, 20)], 80).
Proof. reval. Qed.

Lemma twin_name_schedule :
  run_years (debt_tranches twin_name_deal) (init_balances (debt_tranches twin_name_deal))
    10 (1 / 100) [flat_year] (init_sim (debt_tranches twin_name_deal))
  = Ok {| debt_balances := [("Term Loan"%string, 20)];
          loop_vars := Some (20, 80);
          rows := [twin_row];
          total_paydown := 80 |}.
Proof.
  simpl run_years. rewrite year_body_pos by lia. cbv zeta.
  unfold init_sim. cbn [debt_balances loop_vars rows total_paydown].
  change (debt_tranches twin_name_deal) with [term_loan; with_amount term_loan 100].
  change (init_balances [term_loan; with_amount term_loan 100])
    with [("Term Loan"%string, 100)].
  rewrite twin_name_interest, flat_year_fcf, twin_name_amortization.
  cbn [fst snd]. rewrite twin_name_sweep. cbn [fst snd].
  unfold twin_row. reval.
Qed.

(** Two tranches that share a name share one balance: the entry debt of
    500 is a balance of 100 in the dict, and the paydown of 80 is not
    500 - 20. *)
Lemma twin_names_break_telescoping :
  exists r,
    run_model_body twin_name_deal 10 (1 / 100) = Ok r
    /\ total_debt_paydown r = 80
    /\ total_initial_debt twin_name_deal = 500
    /\ exit_net_debt r = 20.
Proof.
  destruct (run_model_body_pos twin_name_deal 10 (1 / 100))
    as [s [final [Hs [_ [r [Hr [Hd [Hp _]]]]]]]]; [lia | discriminate |].
  change (projections twin_name_deal) with [flat_year] in Hs.
  rewrite twin_name_schedule in Hs. inversion Hs; subst s; clear Hs.
  simpl in Hd, Hp.
  replace (pysum [20]) with 20 in Hd by (unfold pysum; simpl; lra).
  exists r. repeat split; try assumption.
  unfold total_initial_debt, pysum; simpl; lra.
Qed.

(** ** The theorems at the example models *)

Lemma senior_mezz_names : NoDup (map name [senior; mezz]).
Proof.
  simpl. constructor.
  - simpl. intros [H|[]]. discriminate H.
  - constructor; [intros [] | constructor].
Qed.

Lemma custom_deal_valid : valid_tranches (debt_tranches custom_deal).
Proof.
  unfold valid_tranches. simpl. repeat constructor; simpl; lra.
Qed.

Lemma senior_mezz_sweep :
  cash_sweep [senior; mezz] (init_balances [senior; mezz]) 500
  = ([("Senior"%string, 0); ("Mezz"%string, 50)], 500).
Proof. reval. Qed.



Lemma run_model_empty_projections_witness :
  projections no_horizon_deal = []
  /\ run_model 10 (1 / 100) no_horizon_deal = (Raise IndexError, no_horizon_deal).
Proof.
  split; [reflexivity|].
  apply (run_model_empty_projections no_horizon_deal 10 (1 / 100)). reflexivity.
Defined.

Lemma circularity_loop_witness :
  (1 <= 10)%Z
  /\ circularity_loop (Z.to_nat 10) [senior; mezz] (custom_projection 1)
       (init_balances [senior; mezz]) (1 / 100) 0 None
     = Some (single_pass_interest [senior; mezz] (init_balances [senior; mezz]),
             single_pass_fcf (custom_projection 1)
               (single_pass_interest [senior; mezz] (init_balances [senior; mezz])))
  /\ run_model_body custom_deal 10 (1 / 100) = run_model_body custom_deal 1 0.
Proof.
  assert (H : (1 <= 10)%Z) by lia.
  split; [exact H|].
  destruct (circularity_loop_is_single_pass [senior; mezz]
              (init_balances [senior; mezz]) 10 (1 / 100) (custom_projection 1)
              (init_sim [senior; mezz]) H) as [Hloop [_ Hrun]].
  split; [exact Hloop | apply Hrun].
Defined.



Lemma balances_never_negative_witness :
  valid_tranches (debt_tranches custom_deal)
  /\ dict_nonneg (init_balances (debt_tranches custom_deal))
  /\ exists r, run_model_body custom_deal 10 (1 / 100) = Ok r /\ 0 <= exit_net_debt r.
Proof.
  split; [exact custom_deal_valid|].
  destruct (balances_never_negative custom_deal 10 (1 / 100) custom_deal_valid)
    as [Hy [_ Hexit]].
  split.
  - exact (proj1 (Hy O (init_sim (debt_tranches custom_deal)) eq_refl)).
  - apply Hexit; [lia | discriminate].
Defined.

Lemma senior_walk :
  sweep_loop [senior] (init_balances [senior; mezz]) 0 500
  = ([("Senior"%string, 0); ("Mezz"%string, 150)], 400).
Proof. reval. Qed.

Lemma sweep_respects_priority_witness :
  NoDup (map name (non_revolvers [senior; mezz]))
  /\ dict_get (fst (sweep_loop [senior] (init_balances [senior; mezz]) 0 500))
       (name senior) = 0
  /\ dict_get (fst (cash_sweep [senior; mezz] (init_balances [senior; mezz]) 500))
       (name senior) = 0
  /\ dict_get (fst (cash_sweep [senior; mezz] (init_balances [senior; mezz]) 100))
       (name mezz) = dict_get (init_balances [senior; mezz]) (name mezz).
Proof.
  split; [exact senior_mezz_names|].
  destruct (sweep_respects_priority [senior; mezz] (init_balances [senior; mezz]) 500)
    as [_ [_ [_ [Hwalk [Hlow Hmezz]]]]].
  split; [|split].
  - apply (Hwalk [senior] mezz [] senior).
    + reflexivity.
    + rewrite senior_walk. simpl. lra.
    + left; reflexivity.
    + reflexivity.
    + simpl; lia.
  - apply (Hlow senior_mezz_names senior mezz).
    + left; reflexivity.
    + right; left; reflexivity.
    + reflexivity.
    + reflexivity.
    + simpl; lia.
    + rewrite senior_mezz_sweep. simpl. lra.
  - apply Hmezz. simpl. lra.
Defined.



(** * Further properties of the engine *)

(** ** The yearly ledger *)

Lemma year_body_row (ts : list DebtTranche) (orig : dict) (mi : Z) (th : R)
    (proj : LBOProjection) (s s' : Sim) :
  year_body ts orig mi th proj s = Ok s' ->
  exists row,
    rows s' = rows s ++ [row]
    /\ Ledger.year row = year proj
    /\ Ledger.ebitda row = ebitda proj
    /\ Ledger.ending_debt row = pysum (dict_values (debt_balances s'))
    /\ total_paydown s' = total_paydown s + row_paydown row
    /\ (exists fcf,
          Ledger.fcf row = fcf
          /\ Ledger.mandatory_amortization row
             = snd (amortization_loop ts orig (debt_balances s) 0)
          /\ Ledger.cash_sweep row
             = snd (cash_sweep ts (fst (amortization_loop ts orig (debt_balances s) 0))
                      (fcf - Ledger.mandatory_amortization row))
          /\ (Ledger.revolver_change row, debt_balances s')
             = (snd (revolver_loop ts
                       (fst (cash_sweep ts
                               (fst (amortization_loop ts orig (debt_balances s) 0))
                               (fcf - Ledger.mandatory_amortization row)))
                       (fcf - Ledger.mandatory_amortization row)
                       (Ledger.cash_sweep row) 0),
                fst (revolver_loop ts
                       (fst (cash_sweep ts
                               (fst (amortization_loop ts orig (debt_balances s) 0))
                               (fcf - Ledger.mandatory_amortization row)))
                       (fcf - Ledger.mandatory_amortization row)
                       (Ledger.cash_sweep row) 0))).
Proof.
  unfold year_body.
  destruct (circularity_loop _ ts proj (debt_balances s) th 0 (loop_vars s))
    as [[ti fcf]|].
  - destruct (amortization_loop ts orig (debt_balances s) 0) as [bal1 mand] eqn:Ea.
    destruct (cash_sweep ts bal1 (fcf - mand)) as [bal2 sweep] eqn:Ec.
    destruct (revolver_loop ts bal2 (fcf - mand) sweep 0) as [bal3 rc] eqn:Er.
    intros H; inversion H; subst; clear H. eexists. simpl.
    split; [reflexivity|]. split; [reflexivity|]. split; [reflexivity|].
    split; [reflexivity|]. split; [reflexivity|].
    exists fcf. simpl. rewrite Ec. simpl. rewrite Er. simpl. repeat split.
  - destruct (amortization_loop ts orig (debt_balances s) 0); discriminate.
Qed.

Lemma closing_debt_app (d : R) (l : list Ledger.t) (row : Ledger.t) :
  closing_debt d (l ++ [row]) = Ledger.ending_debt row.
Proof.
  unfold closing_debt. rewrite map_app. simpl. apply last_last.
Qed.

Lemma last_cons_default {A : Type} (x : A) (l : list A) (d d' : A) :
  last (x :: l) d = last (x :: l) d'.
Proof.
  revert x; induction l as [|y l IH]; intros x; [reflexivity|].
  change (last (x :: y :: l) d) with (last (y :: l) d).
  change (last (x :: y :: l) d') with (last (y :: l) d').
  apply IH.
Qed.

Lemma ledger_chain_app (d : R) (l : list Ledger.t) (row : Ledger.t) :
  ledger_chain d l ->
  Ledger.ending_debt row = closing_debt d l - row_paydown row ->
  ledger_chain d (l ++ [row]).
Proof.
  revert d; induction l as [|x l IH]; intros d Hc Hrow; simpl in *.
  - split; [exact Hrow | exact I].
  - destruct Hc as [Hx Hc]. split; [exact Hx|].
    apply IH; [exact Hc|].
    rewrite Hrow. unfold closing_debt. simpl.
    destruct (map Ledger.ending_debt l) eqn:E; [reflexivity|].
    rewrite (last_cons_default r l0 d (Ledger.ending_debt x)). reflexivity.
Qed.

Lemma run_years_ledger (ts : list DebtTranche) (orig : dict) (mi : Z) (th : R)
    (projs : list LBOProjection) (s s' : Sim) :
  run_years ts orig mi th projs s = Ok s' ->
  exists ledger,
    rows s' = rows s ++ ledger
    /\ map Ledger.year ledger = map year projs
    /\ map Ledger.ebitda ledger = map ebitda projs
    /\ closing_debt (pysum (dict_values (debt_balances s))) ledger
       = pysum (dict_values (debt_balances s'))
    /\ total_paydown s' = total_paydown s + pysum (map row_paydown ledger)
    /\ ((List.length (filter is_revolver ts) <= 1)%nat ->
        ledger_chain (pysum (dict_values (debt_balances s))) ledger).
Proof.
  revert s; induction projs as [|p projs IH]; intros s; simpl.
  - intros H; inversion H; subst. exists []. rewrite app_nil_r.
    repeat split; try reflexivity. unfold pysum; simpl; lra.
  - destruct (year_body ts orig mi th p s) as [s1|e] eqn:Ey; [|discriminate].
    intros Hrun. destruct (IH s1 Hrun) as [ledger [Hrows [Hy [He [Hc [Hp Hchain]]]]]].
    destruct (year_body_row _ _ _ _ _ _ _ Ey)
      as [row [Hrow [Hry [Hre [Hend [Hpay _]]]]]].
    exists (row :: ledger). rewrite Hrows, Hrow, <- app_assoc. simpl.
    split; [reflexivity|]. split; [rewrite Hry, Hy; reflexivity|].
    split; [rewrite Hre, He; reflexivity|].
    split.
    { rewrite <- Hc. unfold closing_debt. simpl.
      destruct (map Ledger.ending_debt ledger) eqn:E; simpl; [exact Hend|].
      apply last_cons_default. }
    split; [rewrite Hp, Hpay, pysum_cons; lra|].
    intros Hrev. split.
    + rewrite Hend. pose proof (year_body_telescopes _ _ _ _ _ _ _ Hrev Ey) as Ht.
      rewrite Hpay in Ht. lra.
    + rewrite Hend. apply Hchain. exact Hrev.
Qed.

Lemma run_model_body_yearly (self : LBOModel) (mi : Z) (th : R) (r : LBOResult)
    (s : Sim) :
  run_years (debt_tranches self) (init_balances (debt_tranches self)) mi th
    (projections self) (init_sim (debt_tranches self)) = Ok s ->
  run_model_body self mi th = Ok r ->
  yearly_results r = rows s.
Proof.
  intros Hs Hr. unfold run_model_body in Hr. rewrite Hs in Hr.
  destruct (last_item (projections self)); [|discriminate].
  inversion Hr. reflexivity.
Qed.

(** The ledger has one row per projection year, in order, carrying the
    year and the EBITDA of the projection; its paydowns add up to the
    reported total; and the ending debt of its last row is the exit net
    debt. *)
Theorem ledger_follows_projections (self : LBOModel) (mi : Z) (th : R) :
  (1 <= mi)%Z -> projections self <> [] ->
  exists r,
    run_model_body self mi th = Ok r
    /\ List.length (yearly_results r) = List.length (projections self)
    /\ map Ledger.year (yearly_results r) = map year (projections self)
    /\ map Ledger.ebitda (yearly_results r) = map ebitda (projections self)
    /\ total_debt_paydown r = pysum (map row_paydown (yearly_results r))
    /\ exists before row,
         yearly_results r = before ++ [row]
         /\ Ledger.ending_debt row = exit_net_debt r.
Proof.
  intros Hmi Hne.
  destruct (run_model_body_pos self mi th Hmi Hne)
    as [s [final [Hs [_ [r [Hr [Hd [Hp _]]]]]]]].
  destruct (run_years_ledger _ _ _ _ _ _ _ Hs) as [ledger [Hrows [Hy [He [Hc [Hpay _]]]]]].
  simpl in Hrows, Hpay, Hc.
  assert (Hyr : yearly_results r = ledger).
  { rewrite (run_model_body_yearly _ _ _ _ _ Hs Hr). exact Hrows. }
  exists r. split; [exact Hr|]. rewrite Hyr.
  split; [rewrite <- (length_map Ledger.year), Hy, length_map; reflexivity|].
  split; [exact Hy|]. split; [exact He|].
  split; [rewrite Hp, Hpay; lra|].
  destruct (exists_last (l := ledger)) as [before [row Hl]].
  { intros Hnil. rewrite Hnil in Hy. simpl in Hy. revert Hy Hne.
    destruct (projections self); simpl; intros H1 H2;
      [congruence | discriminate H1]. }
  exists before, row. split; [exact Hl|].
  rewrite Hd, <- Hc, Hl. rewrite closing_debt_app. reflexivity.
Qed.


(** ** Returns *)







(** ** Free cash flow *)


(** ** How much the sweep pays *)







(** ** The revolver *)



(** ** Debt without a revolver *)

Lemma amortization_loop_paid_nonneg (ts : list DebtTranche) (orig bal : dict)
    (mand : R) :
  dict_nonneg orig -> dict_nonneg bal ->
  Forall (fun t => 0 <= amortization_rate t) ts ->
  mand <= snd (amortization_loop ts orig bal mand).
Proof.
  intros Ho Hb Hts; revert bal mand Hb.
  induction Hts as [|t ts Ht _ IH]; intros bal mand Hb; simpl; [lra|].
  destruct (is_revolver t); [apply IH; exact Hb|].
  pose proof (dict_nonneg_get orig (name t) Ho) as Hog.
  pose proof (dict_nonneg_get bal (name t) Hb) as Hbg.
  set (amort := Rmin (annual_amortization t (dict_get orig (name t)))
                     (dict_get bal (name t))).
  assert (Ha : 0 <= amort).
  { unfold amort, annual_amortization, Rmin.
    destruct (Rle_dec _ _); [apply Rmult_le_pos; assumption | exact Hbg]. }
  assert (Hle : amort <= dict_get bal (name t)) by apply Rmin_le_r.
  eapply Rle_trans; [|apply IH].
  - lra.
  - apply dict_nonneg_set; [exact Hb | lra].
Qed.

Lemma sweep_loop_paid_nonneg (l : list DebtTranche) (bal : dict) (sweep rem : R) :
  dict_nonneg bal -> sweep <= snd (sweep_loop l bal sweep rem).
Proof.
  revert bal sweep rem; induction l as [|t l IH]; intros bal sweep rem Hb; simpl; [lra|].
  destruct (Rle_dec rem 0); [simpl; lra|].
  pose proof (dict_nonneg_get bal (name t) Hb) as Hbg.
  set (p := Rmin rem (dict_get bal (name t))).
  assert (Hp : 0 <= p) by (unfold p, Rmin; destruct (Rle_dec _ _); lra).
  assert (Hle : p <= dict_get bal (name t)) by apply Rmin_le_r.
  eapply Rle_trans; [|apply IH].
  - lra.
  - apply dict_nonneg_set; [exact Hb | lra].
Qed.

Lemma cash_sweep_paid_nonneg (ts : list DebtTranche) (bal : dict) (cash : R) :
  dict_nonneg bal -> 0 <= snd (cash_sweep ts bal cash).
Proof.
  intros Hb. unfold cash_sweep. destruct (Rlt_dec 0 cash); [|simpl; lra].
  apply sweep_loop_paid_nonneg. exact Hb.
Qed.

Lemma run_years_no_revolver (ts : list DebtTranche) (mi : Z) (th : R)
    (projs : list LBOProjection) (s s' : Sim) :
  filter is_revolver ts = [] ->
  Forall (fun t => 0 <= amount t /\ 0 <= amortization_rate t) ts ->
  dict_nonneg (debt_balances s) ->
  run_years ts (init_balances ts) mi th projs s = Ok s' ->
  dict_nonneg (debt_balances s')
  /\ exists ledger, rows s' = rows s ++ ledger /\ Forall quiet_row ledger.
Proof.
  intros Hnone Hts.
  assert (Ho : dict_nonneg (init_balances ts)).
  { apply init_balances_nonneg. eapply Forall_impl; [|exact Hts]. simpl; tauto. }
  assert (Hrates : Forall (fun t => 0 <= amortization_rate t) ts).
  { eapply Forall_impl; [|exact Hts]. simpl; tauto. }
  revert s; induction projs as [|p projs IH]; intros s Hb; simpl.
  - intros H; inversion H; subst. split; [exact Hb|].
    exists []. rewrite app_nil_r. split; [reflexivity | constructor].
  - destruct (year_body ts (init_balances ts) mi th p s) as [s1|e] eqn:Ey; [|discriminate].
    intros Hrun.
    destruct (year_body_row _ _ _ _ _ _ _ Ey)
      as [row [Hrow [_ [_ [_ [_ [fcf [_ [Hmand [Hsweep Hrev]]]]]]]]]].
    rewrite revolver_loop_no_revolver in Hrev by exact Hnone. simpl in Hrev.
    inversion Hrev as [[Hrc Hbal]].
    assert (Hb1 : dict_nonneg (debt_balances s1)).
    { rewrite Hbal. apply cash_sweep_nonneg, amortization_loop_nonneg. exact Hb. }
    destruct (IH s1 Hb1 Hrun) as [Hb' [ledger [Hrows Hq]]].
    split; [exact Hb'|].
    exists (row :: ledger). rewrite Hrows, Hrow, <- app_assoc. split; [reflexivity|].
    constructor; [|exact Hq].
    unfold quiet_row. split; [exact Hrc|]. split.
    + rewrite Hmand. apply (amortization_loop_paid_nonneg ts _ _ 0); assumption.
    + rewrite Hsweep. apply cash_sweep_paid_nonneg, amortization_loop_nonneg. exact Hb.
Qed.

Lemma pysum_map_nonneg {A : Type} (f : A -> R) (l : list A) :
  Forall (fun a => 0 <= f a) l -> 0 <= pysum (map f l).
Proof.
  intros H. apply pysum_nonneg. rewrite Forall_map. exact H.
Qed.

(** Without a revolver tranche, with non-negative amounts and
    amortization rates, debt only goes down: no row records a revolver
    change, each row amortizes and sweeps a non-negative amount, the
    reported paydown is non-negative, and the exit debt lies between 0
    and the sum of the opening balances. *)
Theorem debt_never_rises_without_revolver (self : LBOModel) (mi : Z) (th : R) :
  (1 <= mi)%Z -> projections self <> [] ->
  filter is_revolver (debt_tranches self) = [] ->
  Forall (fun t => 0 <= amount t /\ 0 <= amortization_rate t) (debt_tranches self) ->
  exists r,
    run_model_body self mi th = Ok r
    /\ Forall (fun row => Ledger.revolver_change row = 0
                          /\ 0 <= Ledger.mandatory_amortization row
                          /\ 0 <= Ledger.cash_sweep row) (yearly_results r)
    /\ 0 <= total_debt_paydown r
    /\ 0 <= exit_net_debt r
    /\ exit_net_debt r <= pysum (dict_values (init_balances (debt_tranches self))).
Proof.
  intros Hmi Hne Hnone Hts.
  destruct (run_model_body_pos self mi th Hmi Hne)
    as [s [final [Hs [_ [r [Hr [Hd [Hp _]]]]]]]].
  assert (Hinit : dict_nonneg (debt_balances (init_sim (debt_tranches self)))).
  { simpl. apply init_balances_nonneg. eapply Forall_impl; [|exact Hts]. simpl; tauto. }
  destruct (run_years_no_revolver _ _ _ _ _ _ Hnone Hts Hinit Hs)
    as [Hb [ledger [Hrows Hq]]].
  simpl in Hrows.
  destruct (run_years_ledger _ _ _ _ _ _ _ Hs) as [ledger' [Hrows' [_ [_ [_ [Hpay _]]]]]].
  simpl in Hrows', Hpay. rewrite Hrows in Hrows'. subst ledger'.
  assert (Hrev : (List.length (filter is_revolver (debt_tranches self)) <= 1)%nat)
    by (rewrite Hnone; simpl; lia).
  pose proof (run_years_telescopes _ _ _ _ _ _ _ Hrev Hs) as Ht. simpl in Ht.
  assert (Hsum : 0 <= pysum (map row_paydown ledger)).
  { apply pysum_map_nonneg. eapply Forall_impl; [|exact Hq].
    intros row [Hrc [Hm Hsw]]. unfold row_paydown. lra. }
  exists r. split; [exact Hr|].
  split; [rewrite (run_model_body_yearly _ _ _ _ _ Hs Hr), Hrows; exact Hq|].
  split; [rewrite Hp, Hpay; lra|].
  split; [rewrite Hd; apply dict_nonneg_sum; exact Hb|].
  rewrite Hd. lra.
Qed.

(** ** More on the solver *)











Lemma run_model_body_no_projection (self : LBOModel) (mi : Z) (th : R) :
  projections self = [] -> run_model_body self mi th = Raise IndexError.
Proof.
  intros Hp. unfold run_model_body. rewrite Hp. reflexivity.
Qed.





(** ** More on sources and uses *)


(** [is_balanced] on any table: it holds exactly when the two totals
    differ by less than the tolerance in either direction, so never for
    a tolerance that is not positive, even on a balanced table. *)
Theorem is_balanced_iff (s : SourcesAndUses.t) (tolerance : R) :
  (SourcesAndUses.is_balanced s tolerance = true
   <-> - tolerance < SourcesAndUses.total_sources s - SourcesAndUses.total_uses s
       < tolerance)
  /\ (tolerance <= 0 -> SourcesAndUses.is_balanced s tolerance = false).
Proof.
  unfold SourcesAndUses.is_balanced.
  set (d := SourcesAndUses.total_sources s - SourcesAndUses.total_uses s).
  destruct (Rlt_dec (Rabs d) tolerance) as [Hlt|Hge]; split.
  - split; [intros _ | reflexivity]. unfold Rabs in Hlt.
    destruct (Rcase_abs d); lra.
  - intros Ht. pose proof (Rabs_pos d). lra.
  - split; [discriminate|]. intros [H1 H2]. exfalso. apply Hge.
    unfold Rabs. destruct (Rcase_abs d); lra.
  - reflexivity.
Qed.

(** ** The further properties at the example models *)

Lemma custom_deal_rates :
  Forall (fun t => 0 <= amount t /\ 0 <= amortization_rate t)
    (debt_tranches custom_deal).
Proof. simpl. repeat constructor; simpl; lra. Qed.






Lemma run_model_no_iterations_witness :
  (0 <= 0)%Z /\ projections custom_deal <> []
  /\ run_model_body custom_deal 0 (1 / 100) = Raise UnboundLocalError.
Proof.
  assert (H1 : (0 <= 0)%Z) by lia.
  assert (H2 : projections custom_deal <> []) by discriminate.
  split; [exact H1|]. split; [exact H2|].
  exact (run_model_no_iterations custom_deal 0 (1 / 100) H1 H2).
Defined.

Lemma ledger_follows_projections_witness :
  exists r,
    run_model_body custom_deal 10 (1 / 100) = Ok r
    /\ List.length (yearly_results r) = 5%nat
    /\ map Ledger.year (yearly_results r) = [1; 2; 3; 4; 5]%Z
    /\ total_debt_paydown r = pysum (map row_paydown (yearly_results r)).
Proof.
  assert (H1 : (1 <= 10)%Z) by lia.
  assert (H2 : projections custom_deal <> []) by discriminate.
  destruct (ledger_follows_projections custom_deal 10 (1 / 100) H1 H2)
    as [r [Hr [Hlen [Hy [_ [Hp _]]]]]].
  exists r. split; [exact Hr|]. split; [exact Hlen|]. split; [exact Hy | exact Hp].
Defined.







Lemma debt_never_rises_without_revolver_witness :
  exists r,
    run_model_body custom_deal 10 (1 / 100) = Ok r
    /\ 0 <= total_debt_paydown r
    /\ 0 <= exit_net_debt r
    /\ exit_net_debt r <= pysum (dict_values (init_balances (debt_tranches custom_deal))).
Proof.
  assert (H1 : (1 <= 10)%Z) by lia.
  assert (H2 : projections custom_deal <> []) by discriminate.
  destruct (debt_never_rises_without_revolver custom_deal 10 (1 / 100) H1 H2 eq_refl
              custom_deal_rates) as [r [Hr [_ [Hp [Hd Hle]]]]].
  exists r. split; [exact Hr|]. split; [exact Hp|]. split; [exact Hd | exact Hle].
Defined.





Lemma is_balanced_iff_witness :
  0 <= 0
  /\ SourcesAndUses.is_balanced (sources_and_uses custom_deal) 0 = false.
Proof.
  assert (H : 0 <= 0) by lra.
  split; [exact H|].
  exact (proj2 (is_balanced_iff (sources_and_uses custom_deal) 0) H).
Defined.

(** ** [simple_lbo] *)



(** With [hold_years <= 0] the projection list is empty and [run_model]
    raises [IndexError]. *)
Theorem simple_lbo_no_hold_years (e m l i x : R) (h : Z) (g c t : R) (mi : Z)
    (th : R) :
  (h <= 0)%Z ->
  projections (simple_lbo e m l i x h g c t) = []
  /\ run_model_body (simple_lbo e m l i x h g c t) mi th = Raise IndexError.
Proof.
  intros Hh.
  assert (Hp : projections (simple_lbo e m l i x h g c t) = []).
  { simpl. replace (Z.to_nat h) with O by lia. reflexivity. }
  split; [exact Hp|]. unfold run_model_body. rewrite Hp. reflexivity.
Qed.


(** ** Sensitivity tables *)



Lemma list_index_found (l : list R) (x : R) (i : nat) :
  list_index l x = Some i ->
  nth_error l i = Some x /\ forall j, (j < i)%nat -> nth_error l j <> Some x.
Proof.
  revert i; induction l as [|y l IH]; intros i; simpl; [discriminate|].
  destruct (Req_dec_T y x) as [->|Hne].
  - intros H; inversion H; subst. split; [reflexivity | intros j Hj; lia].
  - destruct (list_index l x) as [k|]; [|discriminate].
    intros H; inversion H; subst. destruct (IH k eq_refl) as [Hk Hfirst].
    split; [exact Hk|].
    intros [|j] Hj; simpl; [congruence | apply Hfirst; lia].
Qed.

Lemma list_index_missing (l : list R) (x : R) :
  list_index l x = None <-> ~ In x l.
Proof.
  induction l as [|y l IH]; simpl; [tauto|].
  destruct (Req_dec_T y x) as [->|Hne].
  - split; [discriminate | intros H; exfalso; apply H; left; reflexivity].
  - destruct (list_index l x) as [k|].
    + split; [discriminate|]. intros H. exfalso. apply H. right.
      destruct IH as [_ IH]. destruct (in_dec Req_dec_T x l) as [Hin|Hout];
        [exact Hin | specialize (IH Hout); discriminate].
    + split; [|reflexivity]. intros _ [Heq|Hin]; [contradiction|].
      destruct IH as [IH _]. apply (IH eq_refl). exact Hin.
Qed.

Lemma py_getitem_nat {A : Type} (l : list A) (i : nat) (a : A) :
  nth_error l i = Some a -> py_getitem l (Z.of_nat i) = Ok a.
Proof.
  intros Hn. unfold py_getitem.
  assert (Hlt : (i < List.length l)%nat) by (apply nth_error_Some; congruence).
  destruct (Z.ltb_spec (Z.of_nat i) 0); [lia|].
  destruct (Z.leb_spec 0 (Z.of_nat i)); [|lia].
  destruct (Z.ltb_spec (Z.of_nat i) (Z.of_nat (List.length l))); [|lia].
  simpl. rewrite Nat2Z.id, Hn. reflexivity.
Qed.


(** The base indices of [create_table] are those of [list.index]: the
    first position of the base value among the values, and [None] when
    the base value is not given or not among them. *)
Theorem create_table_base_index {S : Type} (calc_func : R -> R -> S -> outcome R * S)
    (row_variable col_variable : string) (row_values col_values : list R)
    (base_row_value base_col_value : option R) (st : S) :
  let table := fst (create_table calc_func row_variable col_variable row_values
                      col_values base_row_value base_col_value st) in
  (forall z, SensitivityTable.base_row_idx table = Some z ->
     exists b i, base_row_value = Some b /\ z = Z.of_nat i
       /\ nth_error row_values i = Some b
       /\ forall j, (j < i)%nat -> nth_error row_values j <> Some b)
  /\ (forall b, base_row_value = Some b -> In b row_values ->
        SensitivityTable.base_row_idx table <> None)
  /\ (forall z, SensitivityTable.base_col_idx table = Some z ->
     exists b i, base_col_value = Some b /\ z = Z.of_nat i
       /\ nth_error col_values i = Some b
       /\ forall j, (j < i)%nat -> nth_error col_values j <> Some b)
  /\ (forall b, base_col_value = Some b -> In b col_values ->
        SensitivityTable.base_col_idx table <> None).
Proof.
  cbv zeta. unfold create_table.
  destruct (fill_rows calc_func row_values col_values st) as [res st']. simpl.
  assert (Hfound : forall values base z, find_base values base = Some z ->
            exists b i, base = Some b /\ z = Z.of_nat i
              /\ nth_error values i = Some b
              /\ forall j, (j < i)%nat -> nth_error values j <> Some b).
  { intros values [b|] z; simpl; [|discriminate].
    destruct (list_index values b) as [i|] eqn:Hi; [|discriminate].
    intros H; inversion H; subst. exists b, i.
    destruct (list_index_found values b i Hi) as [Hn Hf]. auto. }
  assert (Hin : forall values b, In b values -> find_base values (Some b) <> None).
  { intros values b Hb. simpl.
    destruct (list_index values b) as [i|] eqn:Hi; [discriminate|].
    apply list_index_missing in Hi. contradiction. }
  split; [apply Hfound|]. split; [intros b ->; apply Hin|].
  split; [apply Hfound | intros b ->; apply Hin].
Qed.

Lemma fill_row_pure {S : Type} (calc_func : R -> R -> S -> outcome R * S)
    (value : R -> R -> cell) (row_val : R) (col_values : list R) (st : S) :
  (forall r c, exists o,
      calc_func r c st = (o, st)
      /\ match o with Ok x => Num x | Raise _ => NaN end = value r c) ->
  fill_row calc_func row_val col_values st = (map (value row_val) col_values, st).
Proof.
  intros Hpure. induction col_values as [|c cols IH]; simpl; [reflexivity|].
  destruct (Hpure row_val c) as [o [Hc Hv]]. rewrite Hc, IH, Hv. reflexivity.
Qed.

Lemma fill_rows_pure {S : Type} (calc_func : R -> R -> S -> outcome R * S)
    (value : R -> R -> cell) (row_values col_values : list R) (st : S) :
  (forall r c, exists o,
      calc_func r c st = (o, st)
      /\ match o with Ok x => Num x | Raise _ => NaN end = value r c) ->
  fill_rows calc_func row_values col_values st
  = (map (fun r => map (value r) col_values) row_values, st).
Proof.
  intros Hpure. induction row_values as [|r rows IH]; simpl; [reflexivity|].
  rewrite (fill_row_pure calc_func value r col_values st Hpure), IH. reflexivity.
Qed.

Lemma calc_irr_restores (self : LBOModel) (entry exit_mult : R) :
  exists o,
    calc_irr (entry_multiple self) (exit_multiple self) entry exit_mult self = (o, self)
    /\ match o with Ok x => Num x | Raise _ => NaN end = irr_cell self entry exit_mult.
Proof.
  destruct self as [ee em ts ps xm tf ff mc].
  unfold calc_irr, irr_cell, run_model, set_entry_multiple, set_exit_multiple,
    with_exit_multiple, with_entry_multiple, set_entry_multiple.
  simpl.
  destruct (run_model_body _ 10 (1 / 100)) as [r|e]; eexists; split; reflexivity.
Qed.

Lemma lbo_sensitivity_eq (entry_multiples exit_multiples : list R) (self : LBOModel) :
  lbo_sensitivity entry_multiples exit_multiples self
  = ({| SensitivityTable.row_variable := "Entry Multiple";
        SensitivityTable.col_variable := "Exit Multiple";
        SensitivityTable.row_values := entry_multiples;
        SensitivityTable.col_values := exit_multiples;
        SensitivityTable.results :=
          map (fun e => map (irr_cell self e) exit_multiples) entry_multiples;
        SensitivityTable.base_row_idx :=
          find_base entry_multiples (Some (entry_multiple self));
        SensitivityTable.base_col_idx :=
          find_base exit_multiples (Some (exit_multiple self)) |},
     self).
Proof.
  unfold lbo_sensitivity, create_table.
  rewrite (fill_rows_pure _ (irr_cell self) entry_multiples exit_multiples self
             (calc_irr_restores self)).
  reflexivity.
Qed.

(** [lbo_sensitivity] leaves the model as it found it, whether or not
    [run_model] raised in some cell, and the cell for an entry multiple
    [e] and an exit multiple [x] is the IRR of [run_model] on the model
    with these two multiples (debt amounts unchanged), or NaN where that
    run raises. *)
Theorem lbo_sensitivity_table (entry_multiples exit_multiples : list R)
    (self : LBOModel) :
  snd (lbo_sensitivity entry_multiples exit_multiples self) = self
  /\ SensitivityTable.results (fst (lbo_sensitivity entry_multiples exit_multiples self))
     = map (fun e => map (irr_cell self e) exit_multiples) entry_multiples
  /\ forall i j e x,
       nth_error entry_multiples i = Some e ->
       nth_error exit_multiples j = Some x ->
       exists row,
         nth_error (SensitivityTable.results
                      (fst (lbo_sensitivity entry_multiples exit_multiples self))) i
           = Some row
         /\ nth_error row j = Some (irr_cell self e x).
Proof.
  rewrite lbo_sensitivity_eq. simpl.
  split; [reflexivity|]. split; [reflexivity|].
  intros i j e x He Hx.
  exists (map (irr_cell self e) exit_multiples). split.
  - rewrite nth_error_map, He. reflexivity.
  - rewrite nth_error_map, Hx. reflexivity.
Qed.

Lemma irr_cell_cases (self : LBOModel) (e x : R) :
  (projections self = [] -> irr_cell self e x = NaN)
  /\ (projections self <> [] -> exists v, irr_cell self e x = Num v).
Proof.
  unfold irr_cell. split.
  - intros Hp. rewrite run_model_body_no_projection by exact Hp. reflexivity.
  - intros Hne.
    destruct (run_model_body_pos
                (with_exit_multiple (with_entry_multiple self e) x) 10 (1 / 100))
      as [s [final [_ [_ [r [Hr _]]]]]]; [lia | exact Hne |].
    rewrite Hr. eexists. reflexivity.
Qed.

(** A model without projection years gives a table of NaN only; a model
    with at least one gives a table without NaN. *)
Theorem lbo_sensitivity_nan (entry_multiples exit_multiples : list R)
    (self : LBOModel) :
  let results := SensitivityTable.results
                   (fst (lbo_sensitivity entry_multiples exit_multiples self)) in
  (projections self = [] ->
     Forall (Forall (fun c => c = NaN)) results)
  /\ (projections self <> [] ->
     Forall (Forall (fun c => c <> NaN)) results).
Proof.
  cbv zeta. rewrite lbo_sensitivity_eq. simpl. split; intros Hp.
  - apply Forall_map, Forall_forall. intros e _.
    apply Forall_map, Forall_forall. intros x _.
    apply (proj1 (irr_cell_cases self e x)). exact Hp.
  - apply Forall_map, Forall_forall. intros e _.
    apply Forall_map, Forall_forall. intros x _.
    destruct (proj2 (irr_cell_cases self e x) Hp) as [v ->]. discriminate.
Qed.

Lemma find_base_present (values : list R) (b : R) :
  In b values ->
  exists i, find_base values (Some b) = Some (Z.of_nat i)
            /\ nth_error values i = Some b.
Proof.
  intros Hin. simpl. destruct (list_index values b) as [i|] eqn:Hi.
  - exists i. split; [reflexivity | apply (list_index_found values b i Hi)].
  - apply list_index_missing in Hi. contradiction.
Qed.

Lemma irr_cell_base (self : LBOModel) :
  irr_cell self (entry_multiple self) (exit_multiple self)
  = match run_model_body self 10 (1 / 100) with
    | Ok result => Num (irr result)
    | Raise _ => NaN
    end.
Proof.
  unfold irr_cell.
  replace (with_exit_multiple (with_entry_multiple self (entry_multiple self))
             (exit_multiple self)) with self by (destruct self; reflexivity).
  reflexivity.
Qed.

(** When the model's own entry and exit multiples are among the values
    tested, [base_value] of the table is the IRR of [run_model] on the
    model as it is (NaN if that run raises); when one of them is not,
    [base_value] is [None].  It never raises on such a table. *)
Theorem lbo_sensitivity_base_value (entry_multiples exit_multiples : list R)
    (self : LBOModel) :
  let table := fst (lbo_sensitivity entry_multiples exit_multiples self) in
  (In (entry_multiple self) entry_multiples ->
   In (exit_multiple self) exit_multiples ->
   SensitivityTable.base_value table
   = Ok (Some (match run_model_body self 10 (1 / 100) with
               | Ok result => Num (irr result)
               | Raise _ => NaN
               end)))
  /\ (~ In (entry_multiple self) entry_multiples
      \/ ~ In (exit_multiple self) exit_multiples ->
      SensitivityTable.base_value table = Ok None).
Proof.
  cbv zeta. rewrite lbo_sensitivity_eq. unfold SensitivityTable.base_value.
  cbn [fst SensitivityTable.base_row_idx SensitivityTable.base_col_idx
       SensitivityTable.results].
  split.
  - intros He Hx.
    destruct (find_base_present _ _ He) as [i [Hi Hni]].
    destruct (find_base_present _ _ Hx) as [j [Hj Hnj]].
    rewrite Hi, Hj.
    rewrite (py_getitem_nat _ i (map (irr_cell self (entry_multiple self)) exit_multiples))
      by (rewrite nth_error_map, Hni; reflexivity).
    rewrite (py_getitem_nat _ j (irr_cell self (entry_multiple self) (exit_multiple self)))
      by (rewrite nth_error_map, Hnj; reflexivity).
    rewrite irr_cell_base. reflexivity.
  - intros [He|Hx].
    + apply list_index_missing in He. unfold find_base at 1. rewrite He. reflexivity.
    + apply list_index_missing in Hx. unfold find_base at 2. rewrite Hx.
      destruct (find_base entry_multiples (Some (entry_multiple self))); reflexivity.
Qed.

Lemma simple_lbo_no_hold_years_witness :
  (0 <= 0)%Z
  /\ run_model_body
       (simple_lbo 100 10 6 (8 / 100) 10 0 (5 / 100) (15 / 100) (25 / 100))
       10 (1 / 100) = Raise IndexError.
Proof.
  assert (H : (0 <= 0)%Z) by lia.
  split; [exact H|].
  exact (proj2 (simple_lbo_no_hold_years 100 10 6 (8 / 100) 10 0 (5 / 100) (15 / 100)
                  (25 / 100) 10 (1 / 100) H)).
Defined.


Lemma create_table_base_index_witness :
  exists z i,
    SensitivityTable.base_row_idx
      (fst (create_table (calc_irr 8 8) "Entry Multiple" "Exit Multiple"
              [8; 10] [8; 10] (Some 10) (Some 8) one_year_deal)) = Some z
    /\ z = Z.of_nat i
    /\ nth_error [8; 10] i = Some 10.
Proof.
  destruct (create_table_base_index (calc_irr 8 8) "Entry Multiple" "Exit Multiple"
              [8; 10] [8; 10] (Some 10) (Some 8) one_year_deal)
    as [Hfound [Hpresent _]].
  assert (Hin : In 10 [8; 10]) by (right; left; reflexivity).
  pose proof (Hpresent 10 eq_refl Hin) as Hsome.
  destruct (SensitivityTable.base_row_idx
              (fst (create_table (calc_irr 8 8) "Entry Multiple" "Exit Multiple"
                      [8; 10] [8; 10] (Some 10) (Some 8) one_year_deal)))
    as [z|] eqn:Hz.
  - destruct (Hfound z eq_refl) as [b [i [Hb [Hzi [Hn _]]]]].
    exists z, i. split; [reflexivity|]. split; [exact Hzi|].
    inversion Hb; subst b. exact Hn.
  - exfalso. apply Hsome. reflexivity.
Defined.

Lemma lbo_sensitivity_table_witness :
  snd (lbo_sensitivity [8; 10] [8; 10] one_year_deal) = one_year_deal
  /\ exists row,
       nth_error (SensitivityTable.results
                    (fst (lbo_sensitivity [8; 10] [8; 10] one_year_deal))) 0
         = Some row
       /\ nth_error row 1 = Some (irr_cell one_year_deal 8 10).
Proof.
  destruct (lbo_sensitivity_table [8; 10] [8; 10] one_year_deal) as [Hs [_ Hcell]].
  split; [exact Hs|].
  exact (Hcell 0%nat 1%nat 8 10 eq_refl eq_refl).
Defined.

Lemma lbo_sensitivity_nan_witness :
  Forall (Forall (fun c => c = NaN))
    (SensitivityTable.results (fst (lbo_sensitivity [8; 10] [8; 10] no_horizon_deal)))
  /\ Forall (Forall (fun c => c <> NaN))
       (SensitivityTable.results (fst (lbo_sensitivity [8; 10] [8; 10] one_year_deal))).
Proof.
  assert (Hne : projections one_year_deal <> []) by discriminate.
  split.
  - exact (proj1 (lbo_sensitivity_nan [8; 10] [8; 10] no_horizon_deal) eq_refl).
  - exact (proj2 (lbo_sensitivity_nan [8; 10] [8; 10] one_year_deal) Hne).
Defined.

Lemma lbo_sensitivity_base_value_witness :
  SensitivityTable.base_value (fst (lbo_sensitivity [8; 10] [8; 10] one_year_deal))
    = Ok (Some (match run_model_body one_year_deal 10 (1 / 100) with
                | Ok result => Num (irr result)
                | Raise _ => NaN
                end))
  /\ SensitivityTable.base_value (fst (lbo_sensitivity [10] [8; 10] one_year_deal))
     = Ok None.
Proof.
  assert (He : In (entry_multiple one_year_deal) [8; 10]) by (left; reflexivity).
  assert (Hx : In (exit_multiple one_year_deal) [8; 10]) by (left; reflexivity).
  assert (Hout : ~ In (entry_multiple one_year_deal) [10]).
  { simpl. intros [H|[]]. lra. }
  split.
  - exact (proj1 (lbo_sensitivity_base_value [8; 10] [8; 10] one_year_deal) He Hx).
  - exact (proj2 (lbo_sensitivity_base_value [10] [8; 10] one_year_deal) (or_introl Hout)).
Defined.
